(** * Ergo logic manager and execution engine: a shallow embedding

    The development follows two JavaScript classes of the Ergo runtime:

    - [LogicManager] (packages/ergo-compiler/lib/logicmanager.js): model
      management, the [validated] flag, and the validation entry points
      [validateInput], [validateContract], [validateInputRecord],
      [validateOutput], [validateOutputArray];
    - [Engine] (packages/ergo-engine/lib/engine.js): the script cache and
      the entry points [trigger], [invoke], [init], [calculate].

    JavaScript values are embedded as a [json] tree (an object is the
    list of its own properties; what it inherits from [Object.prototype]
    is followed where the code reads or writes a property under a
    computed name), exceptions as an error result, and object state (the
    logic manager, the engine cache, caller-owned option objects, the log
    of collaborator calls) as a [world] threaded through a
    state-and-error monad.  The schema engine,
    the serializer, the script manager and the sandbox are interfaces
    with one instance per implementation.  The promise-returning
    wrappers ([compileLogic], [compileAndTrigger] and the like) are not
    embedded. *)

From Stdlib Require Import ZArith Ascii String List Bool Lia.
From stdpp Require Import base option list strings pretty gmap.

Local Open Scope string_scope.
Local Open Scope list_scope.

(** ** JavaScript values *)

(** The fragment of JavaScript values that crosses the validation
    boundary.  Numbers are restricted to integers; an object is the list
    of its own enumerable properties in enumeration order. *)
#[warnings="-register-all"]
Inductive json : Type :=
| JNull
| JUndefined
| JBool (b : bool)
| JNum (n : Z)
| JString (s : string)
| JArray (items : list json)
| JObject (fields : list (string * json)).

Abbreviation jsobj := (list (string * json)).

(** [o[k]] on an object's property list: the first binding of [k]. *)
Fixpoint lookup_field (k : string) (o : jsobj) : option json :=
  match o with
  | [] => None
  | (k', v) :: o' => if String.eqb k k' then Some v else lookup_field k o'
  end.

(** Writing the own property [k] of an object: the property is
    overwritten in place when it exists and appended otherwise. *)
Fixpoint set_field (k : string) (v : json) (o : jsobj) : jsobj :=
  match o with
  | [] => [(k, v)]
  | (k', v') :: o' =>
      if String.eqb k k' then (k', v) :: o' else (k', v') :: set_field k v o'
  end.

(** The names of the properties that every plain object inherits from
    [Object.prototype]. *)
Definition objectPrototypeNames : list string :=
  ["constructor"; "__defineGetter__"; "__defineSetter__"; "hasOwnProperty";
   "__lookupGetter__"; "__lookupSetter__"; "isPrototypeOf";
   "propertyIsEnumerable"; "toString"; "valueOf"; "__proto__";
   "toLocaleString"].

(** [name] is found on a plain object that has no own property of that
    name. *)
Definition inherited (name : string) : bool :=
  existsb (String.eqb name) objectPrototypeNames.

(** [o[k] = v] on a plain object.  An own property is written; a key the
    object does not own is looked up along the prototype chain, where
    [__proto__] is the one inherited property with a setter: the
    assignment runs that setter, which creates no property (it replaces
    the prototype of [o] when [v] is an object or [null], and does
    nothing otherwise).  Every other key becomes an own property.  The
    value here is the list of own properties, so a replaced prototype
    does not show in it. *)
Definition assign_field (k : string) (v : json) (o : jsobj) : jsobj :=
  match lookup_field k o with
  | Some _ => set_field k v o
  | None => if String.eqb k "__proto__" then o else set_field k v o
  end.

(** The entries of a record whose assignment to a fresh object creates a
    property: all but the one under [__proto__]. *)
Definition assigned_entries (fields : jsobj) : jsobj :=
  List.filter (fun kv => negb (String.eqb kv.1 "__proto__")) fields.

(** [Object.assign(target, source)] for a [source] without the key
    [__proto__]: every property of [source] is set on [target], in
    order. *)
Definition object_assign (target source : jsobj) : jsobj :=
  fold_left (fun acc kv => set_field kv.1 kv.2 acc) source target.

(** JavaScript truthiness, as tested by [x ? a : b], [x || y] and [!x]. *)
Definition truthy (v : json) : bool :=
  match v with
  | JNull | JUndefined => false
  | JBool b => b
  | JNum n => negb (n =? 0)%Z
  | JString s => negb (String.eqb s "")
  | JArray _ | JObject _ => true
  end.

(** [v instanceof Object]: arrays and objects, no primitive and not
    [null]. *)
Definition instanceof_Object (v : json) : bool :=
  match v with
  | JArray _ | JObject _ => true
  | _ => false
  end.

(** [v === null]. *)
Definition is_null (v : json) : bool :=
  match v with JNull => true | _ => false end.

(** ** Boxed collections *)

(** Modelled from the spec: lib/boxedCollections.js is not part of the
    sources at hand.  The specification describes the codec as pure and
    stateless with two rules: a natural number is wrapped as a tagged
    record carrying its numeric value, [{"$nat": n}], and a fixed-length
    ordered collection is wrapped as a tagged record carrying the
    sequence and its length, [{"$coll": [...], "$length": n}].  Both
    rules apply at every depth of the value. *)
Fixpoint boxColl (v : json) : json :=
  match v with
  | JNum n =>
      if (0 <=? n)%Z then JObject [("$nat", JNum n)] else JNum n
  | JArray items =>
      JObject [("$coll", JArray (map boxColl items));
               ("$length", JNum (Z.of_nat (length items)))]
  | JObject fields =>
      JObject (map (fun kv => (kv.1, boxColl kv.2)) fields)
  | _ => v
  end.

(** Modelled from the spec: the inverse transform of the codec, which
    removes the two kinds of tagged record at every depth and leaves
    every other value as it is.  A [$nat] record that carries a negative
    number is not a boxed natural number and is left alone. *)
Fixpoint unboxColl (v : json) : json :=
  match v with
  | JObject [(k, JNum n)] =>
      if String.eqb k "$nat" && (0 <=? n)%Z then JNum n
      else JObject [(k, JNum n)]
  | JObject [(k1, JArray items); (k2, JNum n)] =>
      if String.eqb k1 "$coll" && String.eqb k2 "$length"
      then JArray (map unboxColl items)
      else JObject [(k1, JArray (map unboxColl items)); (k2, JNum n)]
  | JObject fields =>
      JObject (map (fun kv => (kv.1, unboxColl kv.2)) fields)
  | JArray items => JArray (map unboxColl items)
  | _ => v
  end.

(** The shape of a value that [boxColl] returns: never a bare array,
    never a bare natural number. *)
Definition box_shaped (v : json) : Prop :=
  match v with
  | JArray _ => False
  | JNum n => (n < 0)%Z
  | _ => True
  end.

(** ** Exceptions and results *)

(** What a JavaScript [throw] carries: a [TypeError] or a [RangeError]
    raised by the language itself (a property read on [null] or
    [undefined], an object that has no primitive value, an array grown
    past its largest length), or an [Error] raised by the code or by one
    of its collaborators. *)
Inductive error : Type :=
| TypeError (message : string)
| RangeError (message : string)
| Error (message : string).

Inductive result (A : Type) : Type :=
| Ok (a : A)
| Throw (e : error).
Arguments Ok {A} a.
Arguments Throw {A} e.

(** [v.name]: a [TypeError] on [null] and [undefined], the property of an
    object, [undefined] on everything else read here. *)
Definition get_property (v : json) (name : string) : result json :=
  match v with
  | JNull | JUndefined =>
      Throw (TypeError ("Cannot read property '" +:+ name +:+ "'"))
  | JObject fields => Ok (default JUndefined (lookup_field name fields))
  | _ => Ok JUndefined
  end.

(** The [(key, input[key])] pairs visited by [for (const key in input)]:
    the properties of an object, the indices of an array or of a string,
    nothing for the other values ([null] and [undefined] included). *)
Definition for_in_entries (input : json) : jsobj :=
  match input with
  | JObject fields => fields
  | JArray items => imap (fun i v => (pretty i, v)) items
  | JString s =>
      imap (fun i c => (pretty i, JString (String c EmptyString)))
           (list_ascii_of_string s)
  | _ => []
  end.

(** ** Numbers from values

    The loop test [i < a.length] converts [a.length] to a number.  The
    conversion is followed on every value; numbers are exact (the
    rounding of floating point is not modelled) and a character is one
    code unit below 256. *)

(** The number a value converts to: not a number, an infinity, or
    [mantissa * 10 ^ exponent]. *)
Inductive number : Type :=
| NaN
| Infinity (negative : bool)
| Decimal (mantissa exponent : Z).

(** White space and line terminators: TAB, LF, VT, FF, CR, SP, NBSP. *)
Definition is_space (c : ascii) : bool :=
  existsb (Nat.eqb (nat_of_ascii c)) [9; 10; 11; 12; 13; 32; 160]%nat.

Fixpoint drop_spaces (cs : list ascii) : list ascii :=
  match cs with
  | c :: cs' => if is_space c then drop_spaces cs' else cs
  | [] => []
  end.

Definition trim (cs : list ascii) : list ascii :=
  rev (drop_spaces (rev (drop_spaces cs))).

(** The value of a digit in a base up to 16, upper or lower case. *)
Definition digit_of (base : Z) (c : ascii) : option Z :=
  let n := Z.of_nat (nat_of_ascii c) in
  let d := if (48 <=? n)%Z && (n <=? 57)%Z then Some (n - 48)%Z
           else if (97 <=? n)%Z && (n <=? 102)%Z then Some (n - 87)%Z
           else if (65 <=? n)%Z && (n <=? 70)%Z then Some (n - 55)%Z
           else None in
  match d with
  | Some v => if (v <? base)%Z then Some v else None
  | None => None
  end.

(** The value of a sequence of digits, [None] when a character is not a
    digit of the base. *)
Fixpoint digits_value (base acc : Z) (cs : list ascii) : option Z :=
  match cs with
  | [] => Some acc
  | c :: cs' =>
      match digit_of base c with
      | Some d => digits_value base (acc * base + d)%Z cs'
      | None => None
      end
  end.

(** The longest prefix of decimal digits, and what follows it. *)
Fixpoint span_digits (cs : list ascii) : list ascii * list ascii :=
  match cs with
  | c :: cs' =>
      match digit_of 10 c with
      | Some _ => let '(ds, rest) := span_digits cs' in (c :: ds, rest)
      | None => ([], cs)
      end
  | [] => ([], [])
  end.

(** An optional sign: whether it is a minus, and what follows it. *)
Definition split_sign (cs : list ascii) : bool * list ascii :=
  match cs with
  | c :: cs' =>
      if Ascii.eqb c "+" then (false, cs')
      else if Ascii.eqb c "-" then (true, cs')
      else (false, cs)
  | [] => (false, [])
  end.

(** An optional exponent part, [e] or [E] with a signed integer; [None]
    for anything else. *)
Definition parse_exponent (cs : list ascii) : option Z :=
  match cs with
  | [] => Some 0%Z
  | c :: cs' =>
      if Ascii.eqb c "e" || Ascii.eqb c "E"
      then
        let '(negative, ds) := split_sign cs' in
        match ds, digits_value 10 0 ds with
        | _ :: _, Some v => Some (if negative then - v else v)%Z
        | _, _ => None
        end
      else None
  end.

(** A signed decimal literal: [Infinity], or digits with an optional
    fraction and exponent, with a digit before or after the dot. *)
Definition parse_decimal (cs : list ascii) : number :=
  let '(negative, body) := split_sign cs in
  if String.eqb (string_of_list_ascii body) "Infinity" then Infinity negative
  else
    let '(int, rest) := span_digits body in
    let '(dot, frac, rest') :=
      match rest with
      | c :: after =>
          if Ascii.eqb c "."
          then let '(ds, rest') := span_digits after in (true, ds, rest')
          else (false, [], rest)
      | [] => (false, [], [])
      end in
    let valid :=
      match int, frac with
      | _ :: _, _ => true
      | [], _ :: _ => dot
      | [], [] => false
      end in
    match valid, digits_value 10 0 (int ++ frac), parse_exponent rest' with
    | true, Some m, Some e =>
        Decimal (if negative then - m else m)%Z (e - Z.of_nat (length frac))%Z
    | _, _, _ => NaN
    end.

(** A literal in base 16, 8 or 2: [None] when the text does not start
    with such a prefix. *)
Definition parse_radix (cs : list ascii) : option number :=
  match cs with
  | z :: p :: ds =>
      let base :=
        if Ascii.eqb p "x" || Ascii.eqb p "X" then Some 16%Z
        else if Ascii.eqb p "o" || Ascii.eqb p "O" then Some 8%Z
        else if Ascii.eqb p "b" || Ascii.eqb p "B" then Some 2%Z
        else None in
      match Ascii.eqb z "0", base with
      | true, Some b =>
          Some match ds, digits_value b 0 ds with
               | _ :: _, Some v => Decimal v 0
               | _, _ => NaN
               end
      | _, _ => None
      end
  | _ => None
  end.

(** The number a string converts to: [0] for a blank string, the value
    of the numeric literal it holds between white space, and not a number
    otherwise. *)
Definition string_to_number (s : string) : number :=
  match trim (list_ascii_of_string s) with
  | [] => Decimal 0 0
  | cs =>
      match parse_radix cs with
      | Some n => n
      | None => parse_decimal cs
      end
  end.

(** Whether a value has a text: an object that owns a property
    [toString] has none, since that property is no function and the
    inherited [valueOf] returns the object; an array has the texts of its
    elements joined by commas. *)
Fixpoint stringifies (v : json) : bool :=
  match v with
  | JObject fields =>
      match lookup_field "toString" fields with
      | Some _ => false
      | None => true
      end
  | JArray items => forallb stringifies items
  | _ => true
  end.

(** The number a value converts to.  An object converts through its
    text, ["[object Object]"], which is no number; an array through the
    text of its elements joined by commas: the empty text for no element
    and for an element that is [null] or [undefined], no number with two
    elements or more.  A value without a text is a [TypeError]. *)
Fixpoint to_number (v : json) : result number :=
  match v with
  | JUndefined => Ok NaN
  | JNull => Ok (Decimal 0 0)
  | JBool b => Ok (Decimal (if b then 1 else 0) 0)
  | JNum n => Ok (Decimal n 0)
  | JString s => Ok (string_to_number s)
  | JObject _ =>
      if stringifies v then Ok NaN
      else Throw (TypeError "Cannot convert object to primitive value")
  | JArray [] => Ok (Decimal 0 0)
  | JArray [x] =>
      match x with
      | JNull | JUndefined => Ok (Decimal 0 0)
      | JBool _ => Ok NaN
      | _ => to_number x
      end
  | JArray items =>
      if forallb stringifies items then Ok NaN
      else Throw (TypeError "Cannot convert object to primitive value")
  end.

(** One more than the largest length of an array, [2 ^ 32]. *)
Definition array_limit : Z := 4294967296.

(** How many of [i = 0, 1, 2, ...] satisfy [i < x], counted up to
    [array_limit]. *)
Definition iterations (x : number) : Z :=
  match x with
  | NaN | Infinity true => 0
  | Infinity false => array_limit
  | Decimal m e =>
      if (m <=? 0)%Z then 0%Z
      else if (10 <=? e)%Z then array_limit
      else if (0 <=? e)%Z then Z.min (m * 10 ^ e) array_limit
      else Z.min ((m + 10 ^ (- e) - 1) / 10 ^ (- e)) array_limit
  end.

(** [a.length]: a [TypeError] on [null] and [undefined], the length of
    an array or of a string, the property of an object, [undefined] on a
    number or a boolean. *)
Definition read_length (a : json) : result json :=
  match a with
  | JNull | JUndefined => Throw (TypeError "Cannot read property 'length'")
  | JArray items => Ok (JNum (Z.of_nat (length items)))
  | JString s => Ok (JNum (Z.of_nat (String.length s)))
  | JObject fields => Ok (default JUndefined (lookup_field "length" fields))
  | _ => Ok JUndefined
  end.

(** [a[i]] for an index [i]: the item of an array, the character of a
    string, the property of an object under the decimal text of [i], and
    [undefined] where there is none. *)
Definition element_at (a : json) (i : nat) : json :=
  match a with
  | JArray items => default JUndefined (items !! i)
  | JString s =>
      match String.get i s with
      | Some c => JString (String c EmptyString)
      | None => JUndefined
      end
  | JObject fields => default JUndefined (lookup_field (pretty i) fields)
  | _ => JUndefined
  end.

(** The elements visited by
    [for (let i = 0; i < a.length; i++) ... a[i]], of which there are at
    most [array_limit]: reading [length] on [null] or [undefined] and
    converting a length that has no primitive value are [TypeError]s. *)
Definition indexed_elements (a : json) : result (list json) :=
  match read_length a with
  | Ok len =>
      match to_number len with
      | Ok x => Ok (map (element_at a) (seq 0 (Z.to_nat (iterations x))))
      | Throw e => Throw e
      end
  | Throw e => Throw e
  end.

(** ** Model files and the model manager *)

(** A parsed model file: the name it was registered under, the namespace
    its text declares, and the text itself. *)
Record ModelFile : Type := mkModelFile {
  getName : string;
  getNamespace : string;
  getDefinitions : string
}.

(** The observable calls made to collaborators, in the order they are
    made. *)
Inductive event : Type :=
| EFromJSON (input : json) (options : jsobj)
| EValidate (validatorOptions : jsobj)
| EToJSON (options : jsobj)
| EBoxColl (input : json)
| EUnboxColl (input : json)
| EValidateModelFiles
| EValidateModelFile (namespace : string)
| EGetCompiledJavaScript
| EHasDispatch
| ECompileVMScript (source : string)
| ERunVMScriptCall (context : json) (call : string).

(** ** Collaborators

    The classes below are the interfaces the two modules consume; each
    instance is one implementation. *)

(** The file-name normalisation [slash] and the schema engine: the
    parser behind [new ModelFile(...)] that finds the namespace of a model
    text, and the structural validation of one model file or of all of
    them. *)
Class ModelBinding : Type := {
  slash : string -> string;
  namespaceOf : string -> result string;
  validateModelFile : list ModelFile -> ModelFile -> result unit;
  validateAllModelFiles : list ModelFile -> result unit
}.

(** The serializer bound to the model manager: [fromJSON], the validator
    run by [resource.validate()], and [toJSON]. *)
Class Serializer : Type := {
  Resource : Type;
  fromJSON : list ModelFile -> json -> jsobj -> result Resource;
  validate : list ModelFile -> Resource -> jsobj -> result unit;
  toJSON : list ModelFile -> Resource -> jsobj -> result json
}.

(** The script manager: the combined compiled JavaScript and the check
    that it defines a dispatch function. *)
Class ScriptRepository : Type := {
  ScriptManager : Type;
  getCompiledJavaScript : ScriptManager -> result string;
  hasDispatch : ScriptManager -> result unit
}.

(** The two methods an engine subclass implements, and
    [Util.setCurrentTime].  [Script] is the type of what is handed to
    [runVMScriptCall] as the script: a compiled script, which is an
    object (a [VMScript] in the documentation of [cacheJsScript]), or a
    member of [Object.prototype] found in the cache object under its
    name, given by [prototypeMember]. *)
Class Sandbox : Type := {
  Script : Type;
  Moment : Type;
  setCurrentTime : json -> json -> result (Moment * json);
  compileVMScript : string -> result Script;
  runVMScriptCall :
    json -> Moment -> json -> json -> Script -> string -> result json;
  prototypeMember : string -> Script
}.

(** ** State *)

Abbreviation loc := positive.

(** An object argument is either an object the caller holds a reference
    to, stored in the heap, or an object created during the call that the
    caller never sees. *)
Inductive objref : Type :=
| Shared (l : loc)
| Local (o : jsobj).

(** The [options] argument of [validateContract]: omitted, [null], or an
    object. *)
Inductive optarg : Type :=
| ArgUndefined
| ArgNull
| ArgObject (r : objref).

(** The number of times [compileVMScript] was called, read off the
    log. *)
Definition is_compile (e : event) : bool :=
  match e with
  | ECompileVMScript _ => true
  | _ => false
  end.

Definition compile_count (t : list event) : nat :=
  length (List.filter is_compile t).

(** One call of [trigger] or [invoke] with the arguments that follow the
    contract identifier. *)
Inductive invocation : Type :=
| Trigger (contract request state currentTime utcOffset options : json)
| Invoke (clauseName : string)
         (contract params state currentTime utcOffset options : json)
         (validateOptions : optarg).

Section Runtime.
Context `{ModelBinding} `{Serializer} `{ScriptRepository} `{Sandbox}.

(** The fields of a [LogicManager] instance.  [contractName] is [None]
    for [null]; [modelManager] is the model manager's table of model
    files in insertion order (modelled from the spec, see below);
    [builtInNamespaces] is the list read from the model manager when the
    instance is constructed. *)
Record LogicManager : Type := mkLogicManager {
  target : string;
  contractName : option string;
  modelManager : list ModelFile;
  builtInNamespaces : list string;
  scriptManager : ScriptManager;
  validated : bool
}.

(** The fields of an [Engine] instance: the script cache of that
    instance, a plain object used as a map from contract identifiers to
    compiled scripts.  [scripts] holds its own properties. *)
Record Engine : Type := mkEngine {
  scripts : gmap string Script
}.

(** [this.scripts[contractId]]: the own property when there is one, the
    member inherited from [Object.prototype] under that name otherwise,
    [None] for [undefined]. *)
Definition lookup_script (e : Engine) (contractId : string) : option Script :=
  match scripts e !! contractId with
  | Some script => Some script
  | None =>
      if inherited contractId then Some (prototypeMember contractId) else None
  end.

(** What a call can read and change: the logic manager (the receiver of
    the [LogicManager] methods and the [logic] argument of the [Engine]
    methods), the engine (the receiver of the [Engine] methods), the
    objects the caller shares with the call, and the log of collaborator
    calls. *)
Record world : Type := mkWorld {
  logic : LogicManager;
  engine : Engine;
  heap : gmap loc jsobj;
  trace : list event
}.

Definition with_logic (f : LogicManager -> LogicManager) (w : world) : world :=
  mkWorld (f (logic w)) (engine w) (heap w) (trace w).

Definition with_engine (f : Engine -> Engine) (w : world) : world :=
  mkWorld (logic w) (f (engine w)) (heap w) (trace w).

Definition with_heap (f : gmap loc jsobj -> gmap loc jsobj) (w : world) : world :=
  mkWorld (logic w) (engine w) (f (heap w)) (trace w).

Definition with_trace (f : list event -> list event) (w : world) : world :=
  mkWorld (logic w) (engine w) (heap w) (f (trace w)).

Definition set_validated (b : bool) (lm : LogicManager) : LogicManager :=
  mkLogicManager (target lm) (contractName lm) (modelManager lm)
                 (builtInNamespaces lm) (scriptManager lm) b.

Definition set_modelManager (mm : list ModelFile) (lm : LogicManager) : LogicManager :=
  mkLogicManager (target lm) (contractName lm) mm
                 (builtInNamespaces lm) (scriptManager lm) (validated lm).

(** ** The state-and-error monad

    A computation maps a world to a result and the world it leaves
    behind; a [throw] keeps the changes made before it. *)
Definition M (A : Type) : Type := world -> result A * world.

#[global] Instance M_ret : MRet M := fun A a w => (Ok a, w).

#[global] Instance M_bind : MBind M := fun A B f m w =>
  match m w with
  | (Ok a, w') => f a w'
  | (Throw e, w') => (Throw e, w')
  end.

Definition throw {A : Type} (e : error) : M A := fun w => (Throw e, w).

Definition lift {A : Type} (r : result A) : M A := fun w => (r, w).

Definition gets {A : Type} (f : world -> A) : M A := fun w => (Ok (f w), w).

Definition modify (f : world -> world) : M unit := fun w => (Ok tt, f w).

Definition log (e : event) : M unit :=
  modify (with_trace (fun t => t ++ [e])).

(** A call to a collaborator: it is logged, then its result is returned
    or its error thrown. *)
Definition call {A : Type} (e : event) (r : result A) : M A :=
  log e ;; lift r.

(** [items.map(f)] for an effectful [f], left to right. *)
Fixpoint mapM {A B : Type} (f : A -> M B) (items : list A) : M (list B) :=
  match items with
  | [] => mret []
  | x :: items' => y ← f x; ys ← mapM f items'; mret (y :: ys)
  end.

(** ** The model manager *)

(** [new ModelFile(modelManager, content, name)]: the parser finds the
    namespace or throws. *)
Definition new_ModelFile (content name : string) : result ModelFile :=
  match namespaceOf content with
  | Ok ns => Ok (mkModelFile name ns content)
  | Throw e => Throw e
  end.

Definition has_namespace (ns : string) (mm : list ModelFile) : bool :=
  existsb (fun m => String.eqb (getNamespace m) ns) mm.

(** Modelled from the spec: the model manager (lib/apmodelmanager.js over
    the schema engine) is not part of the sources at hand.  It holds one
    model file per namespace.  [mm_addModelFile] registers a model file
    under its namespace, refusing a namespace that is already registered,
    and validates the file first unless validation is disabled. *)
Definition mm_addModelFile (modelFile : ModelFile) (disableValidation : bool) : M unit :=
  mm ← gets (fun w => modelManager (logic w));
  if has_namespace (getNamespace modelFile) mm
  then throw (Error "namespace already exists")
  else
    (if disableValidation then mret tt
     else call (EValidateModelFile (getNamespace modelFile))
               (validateModelFile mm modelFile)) ;;
    modify (with_logic (set_modelManager (mm ++ [modelFile]))).

(** Modelled from the spec: [modelManager.addModelFile] called with the
    text of a model rather than a parsed model file. *)
Definition mm_addModelFile_text (content name : string) (disableValidation : bool) : M unit :=
  modelFile ← lift (new_ModelFile content name);
  mm_addModelFile modelFile disableValidation.

(** Modelled from the spec: [modelManager.updateModelFile] replaces, in
    place, the model file registered under the namespace of the new text;
    it refuses a namespace that is not registered. *)
Definition mm_updateModelFile (content name : string) (disableValidation : bool) : M unit :=
  modelFile ← lift (new_ModelFile content name);
  mm ← gets (fun w => modelManager (logic w));
  if has_namespace (getNamespace modelFile) mm
  then
    (if disableValidation then mret tt
     else call (EValidateModelFile (getNamespace modelFile))
               (validateModelFile mm modelFile)) ;;
    modify (with_logic (set_modelManager
      (map (fun m => if String.eqb (getNamespace m) (getNamespace modelFile)
                     then modelFile else m) mm)))
  else throw (Error "model file does not exist").

(** Modelled from the spec: [modelManager.deleteModelFile] removes the
    model file registered under a namespace and refuses a namespace that
    is not registered. *)
Definition mm_deleteModelFile (namespace : string) : M unit :=
  mm ← gets (fun w => modelManager (logic w));
  if has_namespace namespace mm
  then modify (with_logic (set_modelManager
         (List.filter (fun m => negb (String.eqb (getNamespace m) namespace)) mm)))
  else throw (Error "model file does not exist").

(** Modelled from the spec: [modelManager.validateModelFiles] runs the
    structural validation of all registered model files. *)
Definition mm_validateModelFiles : M unit :=
  mm ← gets (fun w => modelManager (logic w));
  call EValidateModelFiles (validateAllModelFiles mm).

(** ** LogicManager: model management *)

(** [addModelFile(modelFileContent, fileName)]. *)
Definition addModelFile (modelFileContent fileName : string) : M unit :=
  modify (with_logic (set_validated false)) ;;
  let name := slash fileName in
  modelFile ← lift (new_ModelFile modelFileContent name);
  builtIn ← gets (fun w => builtInNamespaces (logic w));
  if negb (existsb (String.eqb (getNamespace modelFile)) builtIn)
  then mm_addModelFile modelFile true
  else mret tt.

(** The callback of [modelFiles.map(...)] in [addModelFiles]: reading a
    missing file name gives [undefined], on which [slash] fails. *)
Definition addModelFiles_callback (modelFileNames : list string)
    (indexed : nat * string) : M unit :=
  match modelFileNames !! indexed.1 with
  | Some fileName => addModelFile indexed.2 (slash fileName)
  | None => throw (TypeError "Cannot read property 'replace' of undefined")
  end.

(** [addModelFiles(modelFiles, modelFileNames)]. *)
Definition addModelFiles (modelFiles modelFileNames : list string) : M unit :=
  modify (with_logic (set_validated false)) ;;
  mapM (addModelFiles_callback modelFileNames) (imap pair modelFiles) ;;
  mret tt.

(** [validateModelFiles()]. *)
Definition validateModelFiles : M unit :=
  v ← gets (fun w => validated (logic w));
  if negb v
  then mm_validateModelFiles ;; modify (with_logic (set_validated true))
  else mret tt.

(** [updateModel(content, name)]. *)
Definition updateModel (content name : string) : M unit :=
  currentModels ← gets (fun w => modelManager (logic w));
  match List.filter (fun x => String.eqb (getName x) name) currentModels with
  | [] => mm_addModelFile_text content name false
  | previousModelFile :: _ =>
      let previousContent := getDefinitions previousModelFile in
      if negb (String.eqb content previousContent)
      then
        let previousNamespace := getNamespace previousModelFile in
        newModelFile ← lift (new_ModelFile content name);
        let newNamespace := getNamespace newModelFile in
        if String.eqb previousNamespace newNamespace
        then mm_updateModelFile content name true
        else mm_deleteModelFile previousNamespace ;;
             mm_addModelFile_text content name true
      else mret tt
  end.

(** ** LogicManager: the call fragments *)

Definition dispatchCallText : string :=
"
const __result = __dispatch({__now:now,__options:options,__contract:context.data,__state:context.state,__emit:{$coll:[],$length:0},request:context.request});
unwrapError(__result);
        ".

(** [getDispatchCall()]. *)
Definition getDispatchCall : M string :=
  lm ← gets logic;
  if String.eqb (target lm) "es6"
  then call EHasDispatch (hasDispatch (scriptManager lm)) ;;
       mret dispatchCallText
  else throw (Error ("Unsupported target: " +:+ target lm)).

Definition invokeCallText (contractName clauseName : string) : string :=
"
const __result = " +:+ contractName +:+ "." +:+ clauseName +:+
"(Object.assign({}, {__now:now,__options:options,__contract:context.data,__state:context.state,__emit:{$coll:[],$length:0}},context.params));
unwrapError(__result);
".

(** [getInvokeCall(clauseName)]: a contract name that is [null] or the
    empty string is falsy. *)
Definition getInvokeCall (clauseName : string) : M string :=
  lm ← gets logic;
  if String.eqb (target lm) "es6"
  then
    match contractName lm with
    | Some name =>
        if negb (String.eqb name "")
        then mret (invokeCallText name clauseName)
        else throw (Error ("Cannot create invoke call for target: " +:+ target lm
                           +:+ " without a contract name"))
    | None =>
        throw (Error ("Cannot create invoke call for target: " +:+ target lm
                      +:+ " without a contract name"))
    end
  else throw (Error ("Unsupported target: " +:+ target lm)).

(** ** LogicManager: validation *)

Definition call_fromJSON (input : json) (options : jsobj) : M Resource :=
  mm ← gets (fun w => modelManager (logic w));
  call (EFromJSON input options) (fromJSON mm input options).

(** [r.$validator = new ResourceValidator(options); r.validate()]. *)
Definition call_validate (r : Resource) (validatorOptions : jsobj) : M unit :=
  mm ← gets (fun w => modelManager (logic w));
  call (EValidate validatorOptions) (validate mm r validatorOptions).

Definition call_toJSON (r : Resource) (options : jsobj) : M json :=
  mm ← gets (fun w => modelManager (logic w));
  call (EToJSON options) (toJSON mm r options).

Definition call_boxColl (input : json) : M json :=
  call (EBoxColl input) (Ok (boxColl input)).

Definition call_unboxColl (input : json) : M json :=
  call (EUnboxColl input) (Ok (unboxColl input)).

(** [validateInput(input, utcOffset)]. *)
Definition validateInput (input utcOffset : json) : M json :=
  if is_null input then mret JNull
  else
    validInput ← call_fromJSON input
      [("validate", JBool false);
       ("acceptResourcesForRelationships", JBool true);
       ("utcOffset", utcOffset)];
    call_validate validInput [("permitResourcesForRelationships", JBool true)] ;;
    vJson ← call_toJSON validInput
      [("ergo", JBool true);
       ("permitResourcesForRelationships", JBool true);
       ("utcOffset", utcOffset)];
    call_boxColl vJson.

(** The record returned by [validateContract] for a contract that is not
    [null]. *)
Record ValidContract : Type := mkValidContract {
  serialized : json;
  validated_contract : Resource
}.

(** [options || {}]. *)
Definition options_or_empty (options : optarg) : objref :=
  match options with
  | ArgObject r => r
  | ArgUndefined | ArgNull => Local []
  end.

(** [Object.assign(target, source)] on an object argument: a shared
    object is changed in the heap; the changed object is returned. *)
Definition assign_object (target : objref) (source : jsobj) : M jsobj :=
  match target with
  | Shared l =>
      h ← gets heap;
      let o := object_assign (default [] (h !! l)) source in
      modify (with_heap (fun h => <[l := o]> h)) ;;
      mret o
  | Local o => mret (object_assign o source)
  end.

(** [validateContract(contract, utcOffset, options)]; [None] is the
    [null] it returns for a [null] contract. *)
Definition validateContract (contract utcOffset : json) (options : optarg)
    : M (option ValidContract) :=
  let options := options_or_empty options in
  if is_null contract then mret None
  else
    validContract ← call_fromJSON contract
      [("validate", JBool false);
       ("acceptResourcesForRelationships", JBool true);
       ("utcOffset", utcOffset)];
    call_validate validContract [("permitResourcesForRelationships", JBool true)] ;;
    assigned ← assign_object options
      [("ergo", JBool true); ("permitResourcesForRelationships", JBool true)];
    vJson ← call_toJSON validContract assigned;
    boxed ← call_boxColl vJson;
    mret (Some (mkValidContract boxed validContract)).

(** One step of the loop of [validateInputRecord]:
    [validRecord[key] = ...]. *)
Definition validateInputRecord_step (utcOffset : json) (validRecord : jsobj)
    (entry : string * json) : M jsobj :=
  if instanceof_Object entry.2
  then v ← validateInput entry.2 utcOffset;
       mret (assign_field entry.1 v validRecord)
  else mret (assign_field entry.1 entry.2 validRecord).

Fixpoint foldM {A B : Type} (f : A -> B -> M A) (acc : A) (items : list B) : M A :=
  match items with
  | [] => mret acc
  | x :: items' => acc' ← f acc x; foldM f acc' items'
  end.

(** [validateInputRecord(input, utcOffset)]. *)
Definition validateInputRecord (input utcOffset : json) : M json :=
  validRecord ← foldM (validateInputRecord_step utcOffset) [] (for_in_entries input);
  mret (JObject validRecord).

(** [validateOutput(output, utcOffset)]. *)
Definition validateOutput (output utcOffset : json) : M json :=
  if is_null output then mret JNull
  else if instanceof_Object output
  then
    vJson ← call_unboxColl output;
    validOutput ← call_fromJSON vJson
      [("ergo", JBool true);
       ("validate", JBool false);
       ("acceptResourcesForRelationships", JBool true);
       ("utcOffset", utcOffset)];
    call_validate validOutput [("permitResourcesForRelationships", JBool true)] ;;
    call_toJSON validOutput
      [("convertResourcesToRelationships", JBool true);
       ("utcOffset", utcOffset)]
  else mret output.

(** [validateOutputArray(output, utcOffset)].  The [push] that would
    make [resultArray] longer than an array can be is a [RangeError],
    thrown once the element it was to add has been validated. *)
Definition validateOutputArray (output utcOffset : json) : M (list json) :=
  outputArray ← call_unboxColl output;
  elements ← lift (indexed_elements outputArray);
  resultArray ← mapM (fun element => validateOutput element utcOffset) elements;
  if (array_limit <=? Z.of_nat (length elements))%Z
  then throw (RangeError "Invalid array length")
  else mret resultArray.

(** ** Engine *)

(** [clearCacheJsScript()]. *)
Definition clearCacheJsScript : M unit :=
  modify (with_engine (fun _ => mkEngine ∅)).

(** [cacheJsScript(scriptManager, contractId)].  What the lookup
    [this.scripts[contractId]] finds is an object or a function, hence
    truthy, so [!this.scripts[contractId]] holds exactly when it finds
    nothing.  The store is reached only then, on a name that is not
    inherited, where it creates or overwrites an own property; the
    script returned is the one just stored. *)
Definition cacheJsScript (scriptManager : ScriptManager) (contractId : string) : M Script :=
  found ← gets (fun w => lookup_script (engine w) contractId);
  match found with
  | None =>
      allJsScripts ← call EGetCompiledJavaScript (getCompiledJavaScript scriptManager);
      script ← call (ECompileVMScript allJsScripts) (compileVMScript allJsScripts);
      modify (with_engine (fun e => mkEngine (<[contractId := script]> (scripts e)))) ;;
      mret script
  | Some script => mret script
  end.

(** The options given to the logic when the caller gives none. *)
Definition defaultOptions : json :=
  JObject [("$class", JString "org.accordproject.ergo.options.Options");
           ("wrapVariables", JBool false);
           ("template", JBool false)].

(** [validContract.serialized]: a [TypeError] when [validateContract]
    returned [null]. *)
Definition get_serialized (validContract : option ValidContract) : result json :=
  match validContract with
  | Some c => Ok (serialized c)
  | None => Throw (TypeError "Cannot read property 'serialized' of null")
  end.

(** The three outputs of a run, validated in the order response, state,
    emit. *)
Definition validateResult (result offset : json) : M (json * json * list json) :=
  response ← lift (get_property result "__response");
  validResponse ← validateOutput response offset;
  newState ← lift (get_property result "__state");
  validNewState ← validateOutput newState offset;
  emit ← lift (get_property result "__emit");
  validEmit ← validateOutputArray emit offset;
  mret (validResponse, validNewState, validEmit).

(** [trigger(logic, contractId, contract, request, state, currentTime,
    utcOffset, options)].  The argument of [Logger.debug] reads
    [request.$class] and [state.$class]. *)
Definition trigger (contractId : string)
    (contract request state currentTime utcOffset options : json) : M json :=
  '(now, offset) ← lift (setCurrentTime currentTime utcOffset);
  validOptions ← call_boxColl (if truthy options then options else defaultOptions);
  validContract ← validateContract contract offset ArgUndefined;
  validRequest ← validateInput request offset;
  validState ← validateInput state offset;
  lift (get_property request "$class") ;;
  lift (get_property state "$class") ;;
  lm ← gets logic;
  script ← cacheJsScript (scriptManager lm) contractId;
  callScript ← getDispatchCall;
  data ← lift (get_serialized validContract);
  let context := JObject [("data", data); ("state", validState);
                          ("request", validRequest); ("options", validOptions)] in
  result ← call (ERunVMScriptCall context callScript)
                (runVMScriptCall offset now validOptions context script callScript);
  '(validResponse, validNewState, validEmit) ← validateResult result offset;
  mret (JObject [("clause", JString contractId);
                 ("request", request);
                 ("response", validResponse);
                 ("state", validNewState);
                 ("emit", JArray validEmit)]).

(** [invoke(logic, contractId, clauseName, contract, params, state,
    currentTime, utcOffset, options, validateOptions)]. *)
Definition invoke (contractId clauseName : string)
    (contract params state currentTime utcOffset options : json)
    (validateOptions : optarg) : M json :=
  '(now, offset) ← lift (setCurrentTime currentTime utcOffset);
  invokeOptions ← call_boxColl (if truthy options then options else defaultOptions);
  validContract ← validateContract contract offset validateOptions;
  validParams ← validateInputRecord params offset;
  validState ← validateInput state offset;
  lift (get_property state "$class") ;;
  lm ← gets logic;
  script ← cacheJsScript (scriptManager lm) contractId;
  callScript ← getInvokeCall clauseName;
  data ← lift (get_serialized validContract);
  let context := JObject [("data", data); ("state", validState);
                          ("params", validParams); ("__options", invokeOptions)] in
  result ← call (ERunVMScriptCall context callScript)
                (runVMScriptCall offset now invokeOptions context script callScript);
  '(validResponse, validNewState, validEmit) ← validateResult result offset;
  mret (JObject [("clause", JString contractId);
                 ("params", params);
                 ("response", validResponse);
                 ("state", validNewState);
                 ("emit", JArray validEmit)]).

Definition defaultState : json :=
  JObject [("$class", JString "org.accordproject.runtime.State")].

(** [init(logic, contractId, contract, params, currentTime, utcOffset,
    options)]. *)
Definition init (contractId : string)
    (contract params currentTime utcOffset options : json) : M json :=
  invoke contractId "init" contract params defaultState
         currentTime utcOffset options ArgNull.

(** [calculate(logic, contractId, name, contract, currentTime, utcOffset,
    options)]. *)
Definition calculate (contractId name : string)
    (contract currentTime utcOffset options : json) : M json :=
  let options := if truthy options then options else JObject [] in
  invoke contractId name contract (JObject []) defaultState
         currentTime utcOffset options
         (ArgObject (Local [("convertResourcesToId", JBool true)])).

(** ** Observations

    What the properties below speak about: the world after some logged
    calls, the values a validation returns, a call of either entry point,
    and the two invariants used to follow a computation. *)

(** The world after some collaborator calls: only the log has grown. *)
Definition logged (w : world) (events : list event) : world :=
  mkWorld (logic w) (engine w) (heap w) (trace w ++ events).

(** The values some call of [validateInput] returns. *)
Definition validateInput_returns (v : json) : Prop :=
  exists input utcOffset w w', validateInput input utcOffset w = (Ok v, w').

(** The values some call of [validateOutput] returns. *)
Definition validateOutput_returns (v : json) : Prop :=
  exists output utcOffset w w', validateOutput output utcOffset w = (Ok v, w').

(** A call of [trigger] or [invoke] on a contract identifier. *)
Definition run_invocation (contractId : string) (i : invocation) : M json :=
  match i with
  | Trigger contract request state currentTime utcOffset options =>
      trigger contractId contract request state currentTime utcOffset options
  | Invoke clauseName contract params state currentTime utcOffset options
           validateOptions =>
      invoke contractId clauseName contract params state currentTime utcOffset
             options validateOptions
  end.

(** [quiet_when P m]: started with an engine that satisfies [P], the
    computation [m] leaves the engine as it is and compiles nothing,
    whether it returns or throws. *)
Definition quiet_when (P : Engine -> Prop) {A : Type} (m : M A) : Prop :=
  forall w r w',
    P (engine w) -> m w = (r, w') ->
    engine w' = engine w /\
    compile_count (trace w') = compile_count (trace w).

(** [maintains I m]: started in a world that satisfies [I], the
    computation [m] ends in one that does, whether it returns or
    throws. *)
Definition maintains (I : world -> Prop) {A : Type} (m : M A) : Prop :=
  forall w r w', I w -> m w = (r, w') -> I w'.

End Runtime.

(** ** A small implementation of the collaborators

    Used to run the definitions on concrete inputs: a model text starts
    with its namespace declaration, a typed resource is the JSON it was
    read from, a script is its source text, and the sandbox returns no
    response, the state it was given and no emitted event. *)
Module Sample.

Fixpoint slash_text (s : string) : string :=
  match s with
  | EmptyString => EmptyString
  | String c s' =>
      String (if Ascii.eqb c "\"%char then "/"%char else c) (slash_text s')
  end.

(** The first word of a text: its characters up to the first space. *)
Fixpoint first_word (s : string) : string :=
  match s with
  | EmptyString => EmptyString
  | String c s' =>
      if Ascii.eqb c " "%char then EmptyString else String c (first_word s')
  end.

Definition parse_namespace (content : string) : result string :=
  if String.prefix "namespace " content
  then Ok (first_word (String.substring 10 (String.length content - 10) content))
  else Throw (Error "Expected a namespace declaration").

Definition modelBinding : ModelBinding := {|
  slash := slash_text;
  namespaceOf := parse_namespace;
  validateModelFile := fun _ _ => Ok tt;
  validateAllModelFiles := fun _ => Ok tt
|}.

Definition serializer : Serializer := {|
  Resource := json;
  fromJSON := fun _ input _ => Ok input;
  validate := fun _ _ _ => Ok tt;
  toJSON := fun _ resource _ => Ok resource
|}.

Definition scriptRepository : ScriptRepository := {|
  ScriptManager := string;
  getCompiledJavaScript := fun compiled => Ok compiled;
  hasDispatch := fun _ => Ok tt
|}.

Definition run (context : json) : result json :=
  match get_property context "state" with
  | Ok state =>
      Ok (JObject [("__response", JNull);
                   ("__state", state);
                   ("__emit", JObject [("$coll", JArray []); ("$length", JNum 0)])])
  | Throw e => Throw e
  end.

(** The text of a member of [Object.prototype]. *)
Definition nativeText (name : string) : string :=
  "function " +:+ name +:+ "() { [native code] }".

Definition sandbox : Sandbox := {|
  Script := string;
  Moment := json;
  setCurrentTime := fun currentTime utcOffset => Ok (currentTime, utcOffset);
  compileVMScript := fun source => Ok source;
  runVMScriptCall := fun _ _ _ context _ _ => run context;
  prototypeMember := nativeText
|}.

Definition baseModel : ModelFile :=
  mkModelFile "base.cto" "org.accordproject.base"
              "namespace org.accordproject.base".

Definition acmeModel : ModelFile :=
  mkModelFile "model.cto" "org.acme.test"
              "namespace org.acme.test concept Foo {}".

(** A logic manager targeting es6 with one built-in namespace and no
    other model, and a world around it with an empty script cache. *)
Definition logicManager : @LogicManager scriptRepository :=
  @mkLogicManager scriptRepository "es6" (Some "HelloWorld") [baseModel]
    ["org.accordproject.base"] "function __dispatch() {}" false.

Definition world0 : @world scriptRepository sandbox :=
  @mkWorld scriptRepository sandbox logicManager (@mkEngine sandbox ∅) ∅ [].

(** A logic manager with one more model, after a successful
    [validateModelFiles]. *)
Definition validatedLogicManager : @LogicManager scriptRepository :=
  @mkLogicManager scriptRepository "es6" (Some "HelloWorld")
    [baseModel; acmeModel]
    ["org.accordproject.base"] "function __dispatch() {}" true.

Definition validatedWorld : @world scriptRepository sandbox :=
  @mkWorld scriptRepository sandbox validatedLogicManager
    (@mkEngine sandbox ∅) ∅ [].

(** A world in which the caller holds one options object. *)
Definition callerOptions : jsobj := [("convertResourcesToId", JBool true)].

Definition worldWithOptions : @world scriptRepository sandbox :=
  @mkWorld scriptRepository sandbox logicManager (@mkEngine sandbox ∅)
    {[ 1%positive := callerOptions ]} [].

Definition contract : json :=
  JObject [("$class", JString "org.accordproject.helloworld.TemplateModel");
           ("name", JString "World")].

Definition request : json :=
  JObject [("$class", JString "org.accordproject.helloworld.Request");
           ("input", JString "Hello")].

(** The value the validator test of the repository boxes. *)
Definition boxedInput : json :=
  JObject [("$class", JString "org.accordproject.copyrightlicense.FOO");
           ("someNumber", JObject [("$nat", JNum 3)]);
           ("someArray",
            JObject [("$coll", JArray [JObject [("$nat", JNum 0)];
                                       JObject [("$nat", JNum 1)];
                                       JObject [("$nat", JNum 2)]]);
                     ("$length", JNum 3)]);
           ("stuff", JString "GRR")].

End Sample.

(** [null] or [undefined]: the values on which a property read throws. *)
Definition nullish (v : json) : bool :=
  match v with
  | JNull | JUndefined => true
  | _ => false
  end.

(** ** LogicManager: logic files and compilation *)

(** [s.indexOf('.') === -1] is [negb (has_dot s)]. *)
Fixpoint has_dot (s : string) : bool :=
  match s with
  | EmptyString => false
  | String c s' => if Ascii.eqb c "."%char then true else has_dot s'
  end.

(** [s.split('.')]: the pieces of [s] between its dots, at least one. *)
Fixpoint split_dot (s : string) : list string :=
  match s with
  | EmptyString => [EmptyString]
  | String c s' =>
      if Ascii.eqb c "."%char then EmptyString :: split_dot s'
      else match split_dot s' with
           | piece :: pieces => String c piece :: pieces
           | [] => [String c EmptyString]
           end
  end.

(** The extension [addLogicFile] computes from the file name:
    ['.ergo'] without a dot, ['.' + fileName.split('.').pop()] with
    one. *)
Definition logicExtension (fileName : string) : string :=
  if negb (has_dot fileName) then ".ergo"
  else "." +:+ List.last (split_dot fileName) EmptyString.

(** The part of the script manager that edits and compiles logic:
    the script constructor, [addScript], [getScript] (no script is
    [None]), the contents of a script, [modifyScript], [compileLogic]
    (which may return no script), the contract name found in a compiled
    script ([None] for [null]), and [ErgoCompiler.contractCallName].
    The methods that change the script manager return the changed one. *)
Class ScriptEditing `{ScriptRepository} : Type := {
  ScriptObject : Type;
  createScript : ScriptManager -> string -> string -> string -> ScriptObject;
  addScript : ScriptManager -> ScriptObject -> result ScriptManager;
  getScript : ScriptManager -> string -> option ScriptObject;
  getContents : ScriptObject -> string;
  modifyScript :
    ScriptManager -> string -> string -> string -> result ScriptManager;
  compileLogic :
    ScriptManager -> bool -> result (ScriptManager * option ScriptObject);
  script_getContractName : ScriptObject -> option string;
  contractCallName : string -> string
}.

Section Editing.
Context `{ModelBinding} `{Serializer} `{Repository : ScriptRepository} `{Sandbox}
        `{!ScriptEditing}.

Definition set_scriptManager (sm : ScriptManager) (lm : LogicManager) : LogicManager :=
  mkLogicManager (target lm) (contractName lm) (modelManager lm)
                 (builtInNamespaces lm) sm (validated lm).

Definition set_contractName (name : option string) (lm : LogicManager) : LogicManager :=
  mkLogicManager (target lm) name (modelManager lm)
                 (builtInNamespaces lm) (scriptManager lm) (validated lm).

(** [getTarget()]. *)
Definition getTarget : M string := gets (fun w => target (logic w)).

(** [getContractName()]. *)
Definition getContractName : M (option string) :=
  gets (fun w => contractName (logic w)).

(** [setContractName(contractName)]. *)
Definition setContractName (name : string) : M unit :=
  modify (with_logic (set_contractName (Some (contractCallName name)))).

(** [addLogicFile(logicFile, fileName)]. *)
Definition addLogicFile (logicFile fileName : string) : M unit :=
  let logicFileName := slash fileName in
  let logicExt := logicExtension fileName in
  sm ← gets (fun w => scriptManager (logic w));
  let scriptObject := createScript sm logicFileName logicExt logicFile in
  sm' ← lift (addScript sm scriptObject);
  modify (with_logic (set_scriptManager sm')).

(** [updateLogic(content, name)]. *)
Definition updateLogic (content name : string) : M unit :=
  sm ← gets (fun w => scriptManager (logic w));
  match getScript sm name with
  | None => addLogicFile content name
  | Some script =>
      if negb (String.eqb (getContents script) content)
      then sm' ← lift (modifyScript sm name ".ergo" content);
           modify (with_logic (set_scriptManager sm'))
      else mret tt
  end.

(** [compileLogicSync(force)]: a contract name that is [null] or the
    empty string is falsy. *)
Definition compileLogicSync (force : bool) : M (option ScriptObject) :=
  validateModelFiles ;;
  sm ← gets (fun w => scriptManager (logic w));
  '(sm', script) ← lift (compileLogic sm force);
  modify (with_logic (set_scriptManager sm')) ;;
  match script with
  | Some compiled =>
      match script_getContractName compiled with
      | Some name =>
          if negb (String.eqb name "") then setContractName name else mret tt
      | None => mret tt
      end
  | None => mret tt
  end ;;
  mret script.

(** [fails_keeping I m]: started in a world that satisfies [I], the
    computation [m] throws, and ends in a world that satisfies [I]. *)
Definition fails_keeping (I : world -> Prop) {A : Type} (m : M A) : Prop :=
  forall w, I w -> exists e w', m w = (Throw e, w') /\ I w'.

End Editing.

(** ** Engine: the base class *)

(** The two methods of the base class [Engine], which every engine that
    runs logic overrides; the clock is the one of [base]. *)
Definition abstractEngine (base : Sandbox) : Sandbox := {|
  Script := @Script base;
  Moment := @Moment base;
  setCurrentTime := @setCurrentTime base;
  compileVMScript := fun _ =>
    Throw (Error "[compileVMScript] Cannot execute Engine: instantiate either VMEngine or EvalEngine");
  runVMScriptCall := fun _ _ _ _ _ _ =>
    Throw (Error "[runVMScriptCall] Cannot execute Engine: instantiate either VMEngine or EvalEngine");
  prototypeMember := @prototypeMember base
|}.

(** [kind()] of the base class. *)
Definition kind : string := "empty".

(** ** More of the small implementation *)
Module SampleEditing.

(** A script manager that is the text of its combined logic: adding or
    modifying a script replaces the text, compiling returns the text as
    the script, and the contract is always called HelloWorld. *)
Definition scriptEditing : @ScriptEditing Sample.scriptRepository :=
  @Build_ScriptEditing Sample.scriptRepository
    string
    (fun (_ : string) (_ _ contents : string) => contents)
    (fun (_ script : string) => Ok script)
    (fun (sm name : string) =>
       if String.eqb name "logic.ergo" then Some sm else None)
    (fun script : string => script)
    (fun (_ _ _ contents : string) => Ok contents)
    (fun (sm : string) (_ : bool) => Ok (sm, Some sm))
    (fun _ : string => Some "HelloWorld")
    (fun name : string => name).

(** A sandbox whose run result has a response and a state and nothing
    else. *)
Definition silentSandbox : Sandbox := {|
  Script := string;
  Moment := json;
  setCurrentTime := fun currentTime utcOffset => Ok (currentTime, utcOffset);
  compileVMScript := fun source => Ok source;
  runVMScriptCall := fun _ _ _ _ _ _ =>
    Ok (JObject [("__response", JNull); ("__state", defaultState)]);
  prototypeMember := Sample.nativeText
|}.

(** A sandbox whose compiler rejects the empty source. *)
Definition strictSandbox : Sandbox := {|
  Script := string;
  Moment := json;
  setCurrentTime := fun currentTime utcOffset => Ok (currentTime, utcOffset);
  compileVMScript := fun source =>
    if String.eqb source "" then Throw (Error "SyntaxError: no logic")
    else Ok source;
  runVMScriptCall := fun _ _ _ context _ _ => Sample.run context;
  prototypeMember := Sample.nativeText
|}.

Definition strictWorld : @world Sample.scriptRepository strictSandbox :=
  @mkWorld Sample.scriptRepository strictSandbox Sample.logicManager
    (@mkEngine strictSandbox ∅) ∅ [].



(** A serializer whose validation rejects a resource without a
    [$class]. *)
Definition pickySerializer : Serializer := {|
  Resource := json;
  fromJSON := fun _ input _ => Ok input;
  validate := fun _ resource _ =>
    match get_property resource "$class" with
    | Ok (JString _) => Ok tt
    | _ => Throw (Error "Invalid or missing identifier for Type")
    end;
  toJSON := fun _ resource _ => Ok resource
|}.

(** A world in which the options object the caller holds carries both
    flags already. *)
Definition flaggedOptions : jsobj :=
  [("ergo", JBool true); ("permitResourcesForRelationships", JBool true)].

Definition worldWithFlaggedOptions
    : @world Sample.scriptRepository Sample.sandbox :=
  @mkWorld Sample.scriptRepository Sample.sandbox Sample.logicManager
    (@mkEngine Sample.sandbox ∅) {[ 1%positive := flaggedOptions ]} [].

(** A serializer that reads and validates everything and cannot
    write. *)
Definition readOnlySerializer : Serializer := {|
  Resource := json;
  fromJSON := fun _ input _ => Ok input;
  validate := fun _ _ _ => Ok tt;
  toJSON := fun _ _ _ => Throw (Error "Cannot serialize")
|}.

End SampleEditing.

(** * Properties *)

(** ** JSON values *)

(** Induction with hypotheses for the values nested in arrays and
    objects. *)
Lemma json_induction (P : json -> Prop) :
  P JNull -> P JUndefined ->
  (forall b, P (JBool b)) -> (forall n, P (JNum n)) ->
  (forall s, P (JString s)) ->
  (forall items, Forall P items -> P (JArray items)) ->
  (forall fields, Forall (fun kv => P kv.2) fields -> P (JObject fields)) ->
  forall j, P j.
Proof.
  intros Hnull Hundef Hbool Hnum Hstr Harr Hobj.
  fix IH 1.
  intros [ | | b | n | s | items | fields ].
  - exact Hnull.
  - exact Hundef.
  - apply Hbool.
  - apply Hnum.
  - apply Hstr.
  - apply Harr. induction items as [|x items IHitems]; constructor.
    + apply IH.
    + exact IHitems.
  - apply Hobj. induction fields as [|kv fields IHfields]; constructor.
    + apply IH.
    + exact IHfields.
Qed.

Lemma lookup_set_field_eq k v o : lookup_field k (set_field k v o) = Some v.
Proof.
  induction o as [|[k' v'] o IHo]; simpl.
  - by rewrite String.eqb_refl.
  - destruct (String.eqb k k') eqn:E; simpl; rewrite E; auto.
Qed.

Lemma lookup_set_field_ne k k' v o :
  k <> k' -> lookup_field k' (set_field k v o) = lookup_field k' o.
Proof.
  intros Hne. induction o as [|[k0 v0] o IHo]; simpl.
  - destruct (String.eqb k' k) eqn:E; [|done].
    apply String.eqb_eq in E. congruence.
  - destruct (String.eqb k k0) eqn:E; simpl.
    + apply String.eqb_eq in E. subst k0.
      destruct (String.eqb k' k) eqn:E'; [|done].
      apply String.eqb_eq in E'. congruence.
    + by rewrite IHo.
Qed.

(** ** The boxing codec *)

Example boxColl_sample :
  boxColl (JObject [("someNumber", JNum 3);
                    ("someArray", JArray [JNum 0; JNum 1; JNum 2])])
  = JObject [("someNumber", JObject [("$nat", JNum 3)]);
             ("someArray",
              JObject [("$coll", JArray [JObject [("$nat", JNum 0)];
                                         JObject [("$nat", JNum 1)];
                                         JObject [("$nat", JNum 2)]]);
                       ("$length", JNum 3)])].
Proof. reflexivity. Qed.

Lemma boxColl_shaped v : box_shaped (boxColl v).
Proof.
  destruct v as [ | | b | n | s | items | fields ]; simpl; try done.
  destruct (0 <=? n)%Z eqn:E; simpl; [done | lia].
Qed.

(** On an object whose property values are box-shaped, [unboxColl] finds
    no tagged record at the top and only descends. *)
Lemma unboxColl_object fields :
  Forall (fun kv => box_shaped kv.2) fields ->
  unboxColl (JObject fields)
  = JObject (map (fun kv => (kv.1, unboxColl kv.2)) fields).
Proof.
  intros Hshape.
  destruct fields as [|[k1 v1] [|[k2 v2] rest]]; [done | | ].
  - apply Forall_cons in Hshape as [Hv1 _]. simpl in Hv1.
    destruct v1 as [ | | b | n | s | items | fs ]; simpl in *; try done.
    assert ((0 <=? n)%Z = false) as -> by lia.
    by rewrite andb_false_r.
  - apply Forall_cons in Hshape as [Hv1 _]. simpl in Hv1.
    destruct v1 as [ | | b | n | s | items | fs ]; simpl in *; done.
Qed.

(** Unboxing undoes boxing, on every value. *)
Lemma unboxColl_boxColl v : unboxColl (boxColl v) = v.
Proof.
  induction v as [ | | b | n | s | items IH | fields IH ] using json_induction;
    try done.
  - simpl. destruct (0 <=? n)%Z eqn:E; simpl; by rewrite ?E.
  - simpl. f_equal. rewrite map_map.
    induction IH as [|x items Hx _ IHitems]; simpl; congruence.
  - cbn [boxColl]. rewrite unboxColl_object.
    + f_equal. rewrite map_map.
      induction IH as [|[k x] fields Hx _ IHfields]; simpl in *; congruence.
    + apply Forall_map, Forall_forall. intros kv _. apply boxColl_shaped.
Qed.

(** Boxing undoes unboxing on the values that [boxColl] returns. *)
Lemma boxColl_unboxColl_boxed v :
  boxColl (unboxColl (boxColl v)) = boxColl v.
Proof. by rewrite unboxColl_boxColl. Qed.

(** ** The monad *)

Section MonadFacts.
Context `{ModelBinding} `{Serializer} `{ScriptRepository} `{Sandbox}.

Lemma bind_run {A B : Type} (m : M A) (f : A -> M B) (w : world) :
  (m ≫= f) w
  = match m w with
    | (Ok a, w1) => f a w1
    | (Throw e, w1) => (Throw e, w1)
    end.
Proof. reflexivity. Qed.

(** A sequence that returns went through both of its parts. *)
Lemma bind_Ok {A B : Type} (m : M A) (f : A -> M B) (w w' : world) (b : B) :
  (m ≫= f) w = (Ok b, w') ->
  exists a w1, m w = (Ok a, w1) /\ f a w1 = (Ok b, w').
Proof.
  rewrite bind_run. destruct (m w) as [[a|e] w1]; [eauto | discriminate].
Qed.

Lemma lift_Ok {A : Type} (r : result A) (w w' : world) (a : A) :
  lift r w = (Ok a, w') -> r = Ok a /\ w' = w.
Proof. unfold lift. intros [= -> ->]. done. Qed.

Lemma call_run {A : Type} (e : event) (r : result A) (w : world) :
  call e r w = (r, with_trace (fun t => t ++ [e]) w).
Proof. reflexivity. Qed.

End MonadFacts.

(** Splits a hypothesis [H : (m ≫= f) w = (Ok b, w')] into the run of
    [m] and the run of the rest, as long as there is a sequence to
    split. *)
Ltac split_bind H :=
  let a := fresh "a" in
  let w := fresh "w" in
  let Hm := fresh "Hstep" in
  first
    [ apply bind_Ok in H as (a & w & Hm & H)
    | match type of H with
      | context [match ?p with pair _ _ => _ end] => is_var p; destruct p
      end ].

Ltac split_binds H := repeat split_bind H.

(** ** Validation of inputs *)

Section ValidationFacts.
Context `{ModelBinding} `{Serializer} `{ScriptRepository} `{Sandbox}.

Lemma logged_logged w es1 es2 : logged (logged w es1) es2 = logged w (es1 ++ es2).
Proof. unfold logged. simpl. by rewrite app_assoc. Qed.

Lemma with_trace_logged w e : with_trace (fun t => t ++ [e]) w = logged w [e].
Proof. reflexivity. Qed.

(** What [validateInput] does with an input that is not [null]: the four
    collaborator calls in order, ended by the first that throws. *)
Lemma validateInput_pipeline (input utcOffset : json) (w : world) :
  input <> JNull ->
  let mm := modelManager (logic w) in
  let readOptions :=
    [("validate", JBool false);
     ("acceptResourcesForRelationships", JBool true);
     ("utcOffset", utcOffset)] in
  let validatorOptions := [("permitResourcesForRelationships", JBool true)] in
  let writeOptions :=
    [("ergo", JBool true);
     ("permitResourcesForRelationships", JBool true);
     ("utcOffset", utcOffset)] in
  validateInput input utcOffset w =
  match fromJSON mm input readOptions with
  | Throw e => (Throw e, logged w [EFromJSON input readOptions])
  | Ok validInput =>
      match validate mm validInput validatorOptions with
      | Throw e =>
          (Throw e, logged w [EFromJSON input readOptions;
                              EValidate validatorOptions])
      | Ok _ =>
          match toJSON mm validInput writeOptions with
          | Throw e =>
              (Throw e, logged w [EFromJSON input readOptions;
                                  EValidate validatorOptions;
                                  EToJSON writeOptions])
          | Ok vJson =>
              (Ok (boxColl vJson),
               logged w [EFromJSON input readOptions;
                         EValidate validatorOptions;
                         EToJSON writeOptions;
                         EBoxColl vJson])
          end
      end
  end.
Proof.
  intros Hinput mm readOptions validatorOptions writeOptions.
  unfold validateInput.
  destruct input; try congruence; cbn [is_null];
    unfold call_fromJSON, call_validate, call_toJSON, call_boxColl,
           call, log, lift, gets, modify, mbind, M_bind, mret, M_ret;
    cbn -[fromJSON validate toJSON boxColl];
    fold mm readOptions validatorOptions writeOptions.
  all: destruct (fromJSON mm _ readOptions) as [validInput|e]; try done.
  all: destruct (validate mm validInput validatorOptions) as [[]|e];
    [|by rewrite ?with_trace_logged, ?logged_logged].
  all: destruct (toJSON mm validInput writeOptions) as [vJson|e];
    by rewrite ?with_trace_logged, ?logged_logged.
Qed.

(** C2. [validateInput(null, utcOffset)] returns [null] and leaves the
    world as it was: nothing is deserialized, validated, serialized or
    boxed.  For every other input the serializer reads it with validation
    off and embedded resources accepted for relationships, the resource
    validator runs, the serializer writes it back in ergo mode, and
    [boxColl] boxes what was written, in this order; the first of these
    steps that throws ends the call. *)
Theorem validateInput_null_or_pipeline (utcOffset : json) (w : world) :
  validateInput JNull utcOffset w = (Ok JNull, w) /\
  forall input, input <> JNull ->
    let mm := modelManager (logic w) in
    let readOptions :=
      [("validate", JBool false);
       ("acceptResourcesForRelationships", JBool true);
       ("utcOffset", utcOffset)] in
    let validatorOptions := [("permitResourcesForRelationships", JBool true)] in
    let writeOptions :=
      [("ergo", JBool true);
       ("permitResourcesForRelationships", JBool true);
       ("utcOffset", utcOffset)] in
    validateInput input utcOffset w =
    match fromJSON mm input readOptions with
    | Throw e => (Throw e, logged w [EFromJSON input readOptions])
    | Ok validInput =>
        match validate mm validInput validatorOptions with
        | Throw e =>
            (Throw e, logged w [EFromJSON input readOptions;
                                EValidate validatorOptions])
        | Ok _ =>
            match toJSON mm validInput writeOptions with
            | Throw e =>
                (Throw e, logged w [EFromJSON input readOptions;
                                    EValidate validatorOptions;
                                    EToJSON writeOptions])
            | Ok vJson =>
                (Ok (boxColl vJson),
                 logged w [EFromJSON input readOptions;
                           EValidate validatorOptions;
                           EToJSON writeOptions;
                           EBoxColl vJson])
            end
        end
    end.
Proof.
  split; [reflexivity|]. intros input Hinput. by apply validateInput_pipeline.
Qed.

Lemma validateContract_null (utcOffset : json) (options : optarg) (w : world) :
  validateContract JNull utcOffset options w = (Ok None, w).
Proof. reflexivity. Qed.

(** C9. For a [null] contract [validateContract] returns [null] itself,
    whatever the offset and the options, and does nothing else; reading
    [serialized] on that result is a [TypeError]; [trigger] and [invoke],
    which read it unconditionally, throw on every call whose contract is
    [null]. *)
Theorem validateContract_null_breaks_callers
    (utcOffset : json) (options : optarg) (w : world) :
  validateContract JNull utcOffset options w = (Ok None, w) /\
  get_serialized None
    = Throw (TypeError "Cannot read property 'serialized' of null") /\
  (forall contractId request state currentTime offset engineOptions w0,
      exists e w', trigger contractId JNull request state currentTime offset
                           engineOptions w0 = (Throw e, w')) /\
  (forall contractId clauseName params state currentTime offset engineOptions
          validateOptions w0,
      exists e w', invoke contractId clauseName JNull params state currentTime
                          offset engineOptions validateOptions w0 = (Throw e, w')).
Proof.
  split; [reflexivity|]. split; [reflexivity|]. split.
  - intros contractId request state currentTime offset engineOptions w0.
    destruct (trigger _ _ _ _ _ _ _ w0) as [[answer|e] w'] eqn:Hrun; [|eauto].
    exfalso. unfold trigger in Hrun. split_binds Hrun.
    match goal with
    | Hc : validateContract JNull _ _ _ = (Ok ?c, _) |- _ =>
        rewrite validateContract_null in Hc; injection Hc as <- <-
    end.
    match goal with
    | Hs : lift (get_serialized None) _ = _ |- _ => discriminate Hs
    end.
  - intros contractId clauseName params state currentTime offset engineOptions
           validateOptions w0.
    destruct (invoke _ _ _ _ _ _ _ _ _ w0) as [[answer|e] w'] eqn:Hrun; [|eauto].
    exfalso. unfold invoke in Hrun. split_binds Hrun.
    match goal with
    | Hc : validateContract JNull _ _ _ = (Ok ?c, _) |- _ =>
        rewrite validateContract_null in Hc; injection Hc as <- <-
    end.
    match goal with
    | Hs : lift (get_serialized None) _ = _ |- _ => discriminate Hs
    end.
Qed.

Lemma call_Ok {A : Type} (e : event) (r : result A) (w w' : world) (a : A) :
  call e r w = (Ok a, w') -> r = Ok a /\ w' = logged w [e].
Proof. rewrite call_run. intros [= -> <-]. done. Qed.

Lemma call_fromJSON_Ok input options w r w' :
  call_fromJSON input options w = (Ok r, w') ->
  fromJSON (modelManager (logic w)) input options = Ok r /\
  w' = logged w [EFromJSON input options].
Proof. unfold call_fromJSON. rewrite bind_run. cbn [gets]. apply call_Ok. Qed.

Lemma call_validate_Ok resource options w u w' :
  call_validate resource options w = (Ok u, w') ->
  validate (modelManager (logic w)) resource options = Ok u /\
  w' = logged w [EValidate options].
Proof. unfold call_validate. rewrite bind_run. cbn [gets]. apply call_Ok. Qed.

Lemma call_toJSON_Ok resource options w v w' :
  call_toJSON resource options w = (Ok v, w') ->
  toJSON (modelManager (logic w)) resource options = Ok v /\
  w' = logged w [EToJSON options].
Proof. unfold call_toJSON. rewrite bind_run. cbn [gets]. apply call_Ok. Qed.

Lemma call_boxColl_Ok input w v w' :
  call_boxColl input w = (Ok v, w') ->
  v = boxColl input /\ w' = logged w [EBoxColl input].
Proof.
  unfold call_boxColl. intros [[= <-] ->]%call_Ok. done.
Qed.

Lemma call_unboxColl_Ok input w v w' :
  call_unboxColl input w = (Ok v, w') ->
  v = unboxColl input /\ w' = logged w [EUnboxColl input].
Proof.
  unfold call_unboxColl. intros [[= <-] ->]%call_Ok. done.
Qed.

Lemma assign_object_shared l source w :
  assign_object (Shared l) source w
  = let o := object_assign (default [] (heap w !! l)) source in
    (Ok o, with_heap (fun h => <[l := o]> h) w).
Proof. reflexivity. Qed.

(** Writing a property with the value it has changes nothing. *)
Lemma set_field_same k v (o : jsobj) :
  lookup_field k o = Some v -> set_field k v o = o.
Proof.
  induction o as [|[k' v'] o IH]; [done|]. cbn [lookup_field set_field].
  destruct (String.eqb k k'); [by intros [= ->] | intros Hk; by rewrite IH].
Qed.

(** C10, as the code has it.  For a contract that is not [null] and an
    options object [o] that the caller holds at [l], [validateContract]
    writes to [o] exactly when the contract has been read and has passed
    validation.  Then the object at [l] is [o] with [ergo] and
    [permitResourcesForRelationships] set to [true] by [Object.assign],
    whether the serialization that follows returns or throws, and every
    other object is as before; both properties read [true], every other
    property of the object is as before, and the object is as it was
    exactly when it already carried both properties with the value
    [true].  When the contract cannot be read or fails validation the
    call throws and no object has changed; a call that returns has
    written. *)
Theorem validateContract_mutates_options
    (contract utcOffset : json) (l : loc) (o : jsobj) (w : world) :
  contract <> JNull ->
  heap w !! l = Some o ->
  let run := validateContract contract utcOffset (ArgObject (Shared l)) w in
  let o' := object_assign o [("ergo", JBool true);
                             ("permitResourcesForRelationships", JBool true)] in
  let checked :=
    exists resource,
      fromJSON (modelManager (logic w)) contract
        [("validate", JBool false);
         ("acceptResourcesForRelationships", JBool true);
         ("utcOffset", utcOffset)] = Ok resource /\
      validate (modelManager (logic w)) resource
        [("permitResourcesForRelationships", JBool true)] = Ok tt in
  (checked -> heap run.2 = <[l := o']> (heap w)) /\
  (~ checked -> (exists e, run.1 = Throw e) /\ heap run.2 = heap w) /\
  ((exists r, run.1 = Ok r) -> checked) /\
  lookup_field "ergo" o' = Some (JBool true) /\
  lookup_field "permitResourcesForRelationships" o' = Some (JBool true) /\
  (forall k, k <> "ergo" -> k <> "permitResourcesForRelationships" ->
             lookup_field k o' = lookup_field k o) /\
  (o' = o <->
   lookup_field "ergo" o = Some (JBool true) /\
   lookup_field "permitResourcesForRelationships" o = Some (JBool true)).
Proof.
  intros Hcontract Hl run o' checked.
  assert (lookup_field "ergo" o' = Some (JBool true)) as Hergo.
  { unfold o', object_assign. cbn [fold_left fst snd].
    rewrite lookup_set_field_ne by done. apply lookup_set_field_eq. }
  assert (lookup_field "permitResourcesForRelationships" o' = Some (JBool true))
    as Hpermit.
  { unfold o', object_assign. cbn [fold_left fst snd].
    apply lookup_set_field_eq. }
  assert (is_null contract = false) as Hnull by (by destruct contract).
  assert (match fromJSON (modelManager (logic w)) contract
                  [("validate", JBool false);
                   ("acceptResourcesForRelationships", JBool true);
                   ("utcOffset", utcOffset)] with
          | Ok resource =>
              match validate (modelManager (logic w)) resource
                      [("permitResourcesForRelationships", JBool true)] with
              | Ok _ => checked /\ heap run.2 = <[l := o']> (heap w)
              | Throw e =>
                  ~ checked /\ run.1 = Throw e /\ heap run.2 = heap w
              end
          | Throw e => ~ checked /\ run.1 = Throw e /\ heap run.2 = heap w
          end) as Hcases.
  { subst run. unfold validateContract. rewrite Hnull. cbn [options_or_empty].
    unfold call_fromJSON, call_validate, call_toJSON, call_boxColl,
      assign_object, call, log, lift, gets, modify, mbind, M_bind, mret, M_ret.
    cbn [logic with_trace modelManager heap with_heap].
    destruct (fromJSON _ _ _) as [resource|e] eqn:Hread; cbn.
    - destruct (validate _ resource _) as [[]|e] eqn:Hvalid; cbn.
      + split; [by exists resource|]. rewrite Hl. cbn [default].
        by destruct (toJSON _ _ _).
      + split; [|done]. intros (resource' & Hread' & Hvalid'). congruence.
    - split; [|done]. intros (resource' & Hread' & _). congruence. }
  assert ((checked /\ heap run.2 = <[l := o']> (heap w)) \/
          (~ checked /\ (exists e, run.1 = Throw e) /\ heap run.2 = heap w))
    as Hrun.
  { revert Hcases. destruct (fromJSON _ _ _) as [resource|e].
    - destruct (validate _ resource _) as [[]|e].
      + by left.
      + intros (? & ? & ?). right. eauto.
    - intros (? & ? & ?). right. eauto. }
  clear Hcases. split; [|split; [|split]].
  - intros Hchecked. by destruct Hrun as [[_ Hheap]|[Hunchecked _]].
  - intros Hunchecked. by destruct Hrun as [[Hchecked _]|[_ Hthrow]].
  - intros [r Hr]. destruct Hrun as [[Hchecked _]|(_ & [e He] & _)]; [done|].
    congruence.
  - split; [exact Hergo|]. split; [exact Hpermit|]. split.
    + intros k Hk1 Hk2. unfold o', object_assign. cbn [fold_left fst snd].
      rewrite !lookup_set_field_ne by done. done.
    + split.
      * intros Heq. rewrite <- Heq. done.
      * intros [Ho1 Ho2]. unfold o', object_assign. cbn [fold_left fst snd].
        rewrite (set_field_same _ _ _ Ho1). by apply set_field_same.
Qed.

(** ** The invocation result *)

(** C1. When [trigger] returns, its answer is the record with exactly the
    five properties [clause], [request], [response], [state] and [emit],
    in this order: [clause] is the contract identifier, [request] is the
    request as the caller gave it, [response] and [state] are what
    [validateOutput] returned for the [__response] and [__state] of the
    run, and [emit] is an array, the list [validateOutputArray] returned
    for the [__emit] of the run; the three validations run in this
    order, the last one leaving the final world. *)
Theorem trigger_answer_shape
    (contractId : string)
    (contract request state currentTime utcOffset options : json)
    (w w' : world) (answer : json) :
  trigger contractId contract request state currentTime utcOffset options w
    = (Ok answer, w') ->
  exists (now : Moment) (offset validOptions context : json) (script : Script)
         (callScript : string) (result response newState emit : json)
         (validResponse validNewState : json) (validEmit : list json)
         (w1 w2 w3 : world),
    setCurrentTime currentTime utcOffset = Ok (now, offset) /\
    runVMScriptCall offset now validOptions context script callScript
      = Ok result /\
    get_property result "__response" = Ok response /\
    get_property result "__state" = Ok newState /\
    get_property result "__emit" = Ok emit /\
    validateOutput response offset w1 = (Ok validResponse, w2) /\
    validateOutput newState offset w2 = (Ok validNewState, w3) /\
    validateOutputArray emit offset w3 = (Ok validEmit, w') /\
    answer = JObject [("clause", JString contractId);
                      ("request", request);
                      ("response", validResponse);
                      ("state", validNewState);
                      ("emit", JArray validEmit)].
Proof.
  intros Hrun. unfold trigger in Hrun. split_binds Hrun.
  match goal with
  | Hv : validateResult _ _ _ = (Ok _, _) |- _ =>
      unfold validateResult in Hv; split_binds Hv; injection Hv as <- <- <- <-
  end.
  repeat match goal with
  | Hs : lift _ _ = (Ok _, _) |- _ => apply lift_Ok in Hs as [Hs ->]
  | Hs : call _ _ _ = (Ok _, _) |- _ => apply call_Ok in Hs as [Hs ->]
  end.
  injection Hrun as <- <-.
  repeat eexists; eauto.
Qed.

(** ** The codec on validated values *)

(** What [validateInput] returns is [null] or a boxed value. *)
Lemma validateInput_returns_boxed v :
  validateInput_returns v -> v = JNull \/ exists vJson, v = boxColl vJson.
Proof.
  intros (input & utcOffset & w & w' & Hrun).
  assert (input = JNull \/ input <> JNull) as [->|Hinput]
    by (destruct input; auto; right; discriminate).
  - left. by injection Hrun as <- _.
  - right.
    rewrite (validateInput_pipeline input utcOffset w Hinput) in Hrun.
    cbv zeta in Hrun.
    repeat match type of Hrun with
    | match ?r with _ => _ end = _ => destruct r; try discriminate
    end.
    injection Hrun as <- _. eauto.
Qed.

(** A value that is not an object passes through [validateOutput]
    unchanged and without any collaborator call. *)
Lemma validateOutput_primitive output utcOffset w :
  instanceof_Object output = false ->
  validateOutput output utcOffset w = (Ok output, w).
Proof. by destruct output. Qed.

(** C8, as the code has it.  On every value returned by [validateInput]
    or by [validateOutput], unboxing undoes boxing; boxing undoes
    unboxing on the values returned by [validateInput], which are boxed.
    [boxColl] wraps a natural number [n] as [{"$nat": n}] and a
    collection as [{"$coll": [...], "$length": n}]. *)
Theorem boxing_round_trip (v : json) :
  validateInput_returns v \/ validateOutput_returns v ->
  unboxColl (boxColl v) = v /\
  (validateInput_returns v -> boxColl (unboxColl v) = v) /\
  (forall n, (0 <= n)%Z -> boxColl (JNum n) = JObject [("$nat", JNum n)]) /\
  (forall items,
      boxColl (JArray items)
      = JObject [("$coll", JArray (map boxColl items));
                 ("$length", JNum (Z.of_nat (length items)))]).
Proof.
  intros _. split; [apply unboxColl_boxColl|]. split; [|split].
  - intros [->|[vJson ->]]%validateInput_returns_boxed; [done|].
    apply boxColl_unboxColl_boxed.
  - intros n Hn. cbn [boxColl]. by assert ((0 <=? n)%Z = true) as -> by lia.
  - done.
Qed.

End ValidationFacts.

(** ** The script cache *)

Section CacheFacts.
Context `{ModelBinding} `{Serializer} `{ScriptRepository} `{Sandbox}.

Lemma quiet_ret P {A : Type} (a : A) : quiet_when P (mret a).
Proof. intros w r w' _ [= <- <-]. done. Qed.

Lemma quiet_throw P {A : Type} (e : error) : quiet_when P (throw (A := A) e).
Proof. intros w r w' _ [= <- <-]. done. Qed.

Lemma quiet_lift P {A : Type} (r : result A) : quiet_when P (lift r).
Proof. intros w r' w' _ [= <- <-]. done. Qed.

Lemma quiet_gets P {A : Type} (f : world -> A) : quiet_when P (gets f).
Proof. intros w r w' _ [= <- <-]. done. Qed.

Lemma quiet_modify_logic P f : quiet_when P (modify (with_logic f)).
Proof. intros w r w' _ [= <- <-]. done. Qed.

Lemma quiet_modify_heap P f : quiet_when P (modify (with_heap f)).
Proof. intros w r w' _ [= <- <-]. done. Qed.

Lemma quiet_bind P {A B : Type} (m : M A) (f : A -> M B) :
  quiet_when P m -> (forall a, quiet_when P (f a)) -> quiet_when P (m ≫= f).
Proof.
  intros Hm Hf w r w' HP. rewrite bind_run.
  destruct (m w) as [[a|e] w1] eqn:Hrun.
  - intros Hrest. destruct (Hm _ _ _ HP Hrun) as [He Hc].
    destruct (Hf a w1 r w') as [He' Hc']; [by rewrite He | done |].
    split; congruence.
  - intros [= <- <-]. eauto.
Qed.

Lemma quiet_call P {A : Type} (e : event) (r : result A) :
  is_compile e = false -> quiet_when P (call e r).
Proof.
  intros He w r' w' _. rewrite call_run. intros [= <- <-].
  split; [done|]. cbn [trace with_trace]. unfold compile_count.
  rewrite List.filter_app. cbn [List.filter]. rewrite He.
  by rewrite app_nil_r.
Qed.

Lemma quiet_mapM P {A B : Type} (f : A -> M B) (items : list A) :
  (forall x, quiet_when P (f x)) -> quiet_when P (mapM f items).
Proof.
  intros Hf. induction items as [|x items IH]; cbn [mapM].
  - apply quiet_ret.
  - apply quiet_bind; [apply Hf|]. intros y.
    apply quiet_bind; [apply IH|]. intros ys. apply quiet_ret.
Qed.

Lemma quiet_foldM P {A B : Type} (f : A -> B -> M A) (acc : A) (items : list B) :
  (forall a x, quiet_when P (f a x)) -> quiet_when P (foldM f acc items).
Proof.
  intros Hf. revert acc. induction items as [|x items IH]; intros acc; cbn [foldM].
  - apply quiet_ret.
  - apply quiet_bind; [apply Hf|]. intros acc'. apply IH.
Qed.

End CacheFacts.

Create HintDb quiet.
#[export] Hint Resolve quiet_ret quiet_throw quiet_lift quiet_gets
  quiet_modify_logic quiet_modify_heap : quiet.
#[export] Hint Extern 1 (quiet_when _ (call _ _)) =>
  apply quiet_call; reflexivity : quiet.

(** Proves [quiet_when P m] by following the structure of [m]. *)
Ltac quiet_step :=
  match goal with
  | |- quiet_when _ (mbind _ _) => apply quiet_bind; [|intros ?]
  | |- quiet_when _ (if ?b then _ else _) => destruct b
  | |- quiet_when _ (match ?x with _ => _ end) => destruct x
  | |- quiet_when _ (mapM _ _) => apply quiet_mapM; intros ?
  | |- quiet_when _ (foldM _ _ _) => apply quiet_foldM; intros ? ?
  | |- quiet_when _ _ => solve [eauto with quiet]
  end.

Ltac solve_quiet := repeat quiet_step.

Section CacheTheorems.
Context `{ModelBinding} `{Serializer} `{ScriptRepository} `{Sandbox}.

Lemma quiet_call_boxColl P input : quiet_when P (call_boxColl input).
Proof. unfold call_boxColl. solve_quiet. Qed.

Lemma quiet_call_unboxColl P input : quiet_when P (call_unboxColl input).
Proof. unfold call_unboxColl. solve_quiet. Qed.

Lemma quiet_validateInput P input utcOffset :
  quiet_when P (validateInput input utcOffset).
Proof.
  unfold validateInput, call_fromJSON, call_validate, call_toJSON, call_boxColl.
  solve_quiet.
Qed.

Lemma quiet_validateContract P contract utcOffset options :
  quiet_when P (validateContract contract utcOffset options).
Proof.
  unfold validateContract, call_fromJSON, call_validate, call_toJSON,
    call_boxColl, assign_object.
  solve_quiet.
Qed.

Lemma quiet_validateInputRecord P input utcOffset :
  quiet_when P (validateInputRecord input utcOffset).
Proof.
  unfold validateInputRecord. solve_quiet.
  unfold validateInputRecord_step. solve_quiet.
  apply quiet_validateInput.
Qed.

Lemma quiet_validateOutput P output utcOffset :
  quiet_when P (validateOutput output utcOffset).
Proof.
  unfold validateOutput, call_fromJSON, call_validate, call_toJSON,
    call_unboxColl.
  solve_quiet.
Qed.

Lemma quiet_validateOutputArray P output utcOffset :
  quiet_when P (validateOutputArray output utcOffset).
Proof.
  unfold validateOutputArray, call_unboxColl. solve_quiet.
  apply quiet_validateOutput.
Qed.

Lemma quiet_validateResult P result offset :
  quiet_when P (validateResult result offset).
Proof.
  unfold validateResult.
  solve_quiet; auto using quiet_validateOutput, quiet_validateOutputArray.
Qed.

Lemma quiet_getDispatchCall P : quiet_when P getDispatchCall.
Proof. unfold getDispatchCall. solve_quiet. Qed.

Lemma quiet_getInvokeCall P clauseName : quiet_when P (getInvokeCall clauseName).
Proof. unfold getInvokeCall. solve_quiet. Qed.

(** What the lookup finds: an own property, or nothing exactly when
    there is no own property and the name is not inherited. *)
Lemma lookup_script_own e contractId script :
  scripts e !! contractId = Some script ->
  lookup_script e contractId = Some script.
Proof. intros Hown. unfold lookup_script. by rewrite Hown. Qed.

Lemma lookup_script_None e contractId :
  lookup_script e contractId = None <->
  scripts e !! contractId = None /\ inherited contractId = false.
Proof.
  unfold lookup_script.
  destruct (scripts e !! contractId), (inherited contractId);
    split; try done; intros [? ?]; done.
Qed.

Lemma lookup_script_inherited e contractId :
  scripts e !! contractId = None -> inherited contractId = true ->
  lookup_script e contractId = Some (prototypeMember contractId).
Proof. intros Hown Hname. unfold lookup_script. by rewrite Hown, Hname. Qed.

(** A lookup that finds something returns it and changes nothing. *)
Lemma cacheJsScript_hit scriptManager contractId script w :
  lookup_script (engine w) contractId = Some script ->
  cacheJsScript scriptManager contractId w = (Ok script, w).
Proof.
  intros Hhit. unfold cacheJsScript. rewrite bind_run. cbn [gets].
  by rewrite Hhit.
Qed.

(** A lookup that finds nothing, followed by a return: one compilation,
    and the script stored under the contract identifier. *)
Lemma cacheJsScript_miss scriptManager contractId script w w' :
  lookup_script (engine w) contractId = None ->
  cacheJsScript scriptManager contractId w = (Ok script, w') ->
  scripts (engine w') = <[contractId := script]> (scripts (engine w)) /\
  compile_count (trace w') = S (compile_count (trace w)).
Proof.
  intros Hmiss Hrun. unfold cacheJsScript in Hrun.
  rewrite bind_run in Hrun. cbn [gets] in Hrun. rewrite Hmiss in Hrun.
  split_binds Hrun.
  repeat match goal with
  | Hs : call _ _ _ = (Ok _, _) |- _ => apply call_Ok in Hs as [_ ->]
  | Hs : modify _ _ = (Ok _, _) |- _ => injection Hs as _ <-
  end.
  injection Hrun as <- <-. split; [done|].
  cbn [trace with_engine logged]. unfold compile_count.
  rewrite !List.filter_app, !length_app. cbn. lia.
Qed.

(** What [cacheJsScript] does when the lookup finds nothing, whether it
    returns or throws: it returns after one compilation with the script
    stored, or it throws what the script manager or the compiler threw
    and leaves the engine alone. *)
Lemma cacheJsScript_miss_outcome scriptManager contractId w r w' :
  lookup_script (engine w) contractId = None ->
  cacheJsScript scriptManager contractId w = (r, w') ->
  (exists source script,
      getCompiledJavaScript scriptManager = Ok source /\
      compileVMScript source = Ok script /\
      r = Ok script /\
      engine w' = mkEngine (<[contractId := script]> (scripts (engine w)))) \/
  (exists e,
      (getCompiledJavaScript scriptManager = Throw e \/
       exists source, getCompiledJavaScript scriptManager = Ok source /\
                      compileVMScript source = Throw e) /\
      r = Throw e /\ engine w' = engine w).
Proof.
  intros Hmiss. unfold cacheJsScript. rewrite bind_run. cbn [gets].
  rewrite Hmiss, bind_run, call_run.
  destruct (getCompiledJavaScript scriptManager) as [source|e] eqn:Hsource.
  - rewrite bind_run, call_run.
    destruct (compileVMScript source) as [script|e] eqn:Hcompile.
    + intros [= <- <-]. left. exists source, script. done.
    + intros [= <- <-]. right. exists e. split; [|done]. right. eauto.
  - intros [= <- <-]. right. exists e. split; [|done]. by left.
Qed.

Lemma quiet_cacheJsScript scriptManager contractId :
  quiet_when (fun e => is_Some (lookup_script e contractId))
             (cacheJsScript scriptManager contractId).
Proof.
  intros w r w' [script Hhit] Hrun.
  rewrite (cacheJsScript_hit _ _ _ _ Hhit) in Hrun. by injection Hrun as _ <-.
Qed.

End CacheTheorems.

#[export] Hint Resolve quiet_call_boxColl quiet_call_unboxColl
  quiet_validateInput quiet_validateContract
  quiet_validateInputRecord quiet_validateOutput quiet_validateOutputArray
  quiet_validateResult quiet_getDispatchCall quiet_getInvokeCall
  quiet_cacheJsScript : quiet.


Section CacheClaim.
Context `{ModelBinding} `{Serializer} `{ScriptRepository} `{Sandbox}.





End CacheClaim.

(** ** The entry points that supply a state *)

Section EntryPoints.
Context `{ModelBinding} `{Serializer} `{ScriptRepository} `{Sandbox}.

(** When [invoke] returns, the sandbox ran on a context whose [state] is
    what [validateInput] returned for the state argument, and the answer
    carries the parameters as the caller gave them. *)
Lemma invoke_answer_shape
    (contractId clauseName : string)
    (contract params state currentTime utcOffset options : json)
    (validateOptions : optarg) (w w' : world) (answer : json) :
  invoke contractId clauseName contract params state currentTime utcOffset
         options validateOptions w = (Ok answer, w') ->
  exists (now : Moment) (offset invokeOptions data validParams validState : json)
         (script : Script) (callScript : string) (result : json)
         (validResponse validNewState : json) (validEmit : list json)
         (wa wb wc : world),
    setCurrentTime currentTime utcOffset = Ok (now, offset) /\
    validateInput state offset wa = (Ok validState, wb) /\
    runVMScriptCall offset now invokeOptions
      (JObject [("data", data); ("state", validState);
                ("params", validParams); ("__options", invokeOptions)])
      script callScript = Ok result /\
    validateResult result offset wc
      = (Ok (validResponse, validNewState, validEmit), w') /\
    answer = JObject [("clause", JString contractId);
                      ("params", params);
                      ("response", validResponse);
                      ("state", validNewState);
                      ("emit", JArray validEmit)].
Proof.
  intros Hrun. unfold invoke in Hrun. split_binds Hrun.
  repeat match goal with
  | Hs : lift _ _ = (Ok _, _) |- _ => apply lift_Ok in Hs as [Hs ->]
  | Hs : call _ _ _ = (Ok _, _) |- _ => apply call_Ok in Hs as [Hs ->]
  end.
  injection Hrun as <- <-.
  repeat eexists; eauto.
Qed.

(** C3, as the code has it.  [init] is [invoke] with the clause name
    ["init"], the parameters the caller gave, the default state
    [{$class: "org.accordproject.runtime.State"}] and [null] validation
    options, whatever the other arguments are; [calculate] is [invoke]
    with an empty parameter record and the same default state. *)
Theorem init_supplies_default_state
    (contractId name : string)
    (contract params currentTime utcOffset options : json) :
  init contractId contract params currentTime utcOffset options
  = invoke contractId "init" contract params
           (JObject [("$class", JString "org.accordproject.runtime.State")])
           currentTime utcOffset options ArgNull /\
  calculate contractId name contract currentTime utcOffset options
  = invoke contractId name contract (JObject [])
           (JObject [("$class", JString "org.accordproject.runtime.State")])
           currentTime utcOffset
           (if truthy options then options else JObject [])
           (ArgObject (Local [("convertResourcesToId", JBool true)])).
Proof. split; reflexivity. Qed.

(** The state a returning [init] hands to the sandbox is the validated
    default state, and its answer echoes the caller's parameters. *)
Lemma init_answer_shape
    (contractId : string)
    (contract params currentTime utcOffset options : json)
    (w w' : world) (answer : json) :
  init contractId contract params currentTime utcOffset options w
    = (Ok answer, w') ->
  get_property answer "params" = Ok params /\
  exists offset validState wa wb,
    validateInput defaultState offset wa = (Ok validState, wb).
Proof.
  intros Hrun. unfold init in Hrun.
  apply invoke_answer_shape in Hrun
    as (now & offset & invokeOptions & data & validParams & validState & script
        & callScript & result & validResponse & validNewState & validEmit
        & wa & wb & wc & _ & Hstate & _ & _ & ->).
  split; [reflexivity | eauto].
Qed.

End EntryPoints.

(** ** Model management *)

Section ModelFacts.
Context `{ModelBinding} `{Serializer} `{ScriptRepository} `{Sandbox}.

Lemma maintains_ret I {A : Type} (a : A) : maintains I (mret a).
Proof. intros w r w' HI [= <- <-]. done. Qed.

Lemma maintains_throw I {A : Type} (e : error) : maintains I (throw (A := A) e).
Proof. intros w r w' HI [= <- <-]. done. Qed.

Lemma maintains_lift I {A : Type} (r : result A) : maintains I (lift r).
Proof. intros w r' w' HI [= <- <-]. done. Qed.

Lemma maintains_gets I {A : Type} (f : world -> A) : maintains I (gets f).
Proof. intros w r w' HI [= <- <-]. done. Qed.

Lemma maintains_modify I (f : world -> world) :
  (forall w, I w -> I (f w)) -> maintains I (modify f).
Proof. intros Hf w r w' HI [= <- <-]. auto. Qed.

Lemma maintains_bind I {A B : Type} (m : M A) (f : A -> M B) :
  maintains I m -> (forall a, maintains I (f a)) -> maintains I (m ≫= f).
Proof.
  intros Hm Hf w r w' HI. rewrite bind_run.
  destruct (m w) as [[a|e] w1] eqn:Hrun.
  - intros Hrest. eapply Hf; [|exact Hrest]. eapply Hm; eauto.
  - intros [= <- <-]. eapply Hm; eauto.
Qed.

Lemma maintains_call I {A : Type} (e : event) (r : result A) :
  (forall w, I w -> I (with_trace (fun t => t ++ [e]) w)) ->
  maintains I (call e r).
Proof. intros He w r' w' HI. rewrite call_run. intros [= <- <-]. auto. Qed.

Lemma maintains_mapM I {A B : Type} (f : A -> M B) (items : list A) :
  (forall x, maintains I (f x)) -> maintains I (mapM f items).
Proof.
  intros Hf. induction items as [|x items IH]; cbn [mapM].
  - apply maintains_ret.
  - apply maintains_bind; [apply Hf|]. intros y.
    apply maintains_bind; [apply IH|]. intros ys. apply maintains_ret.
Qed.

End ModelFacts.

(** Proves [maintains I m] by following the structure of [m]; the side
    conditions on [modify] and [call] are closed by computation. *)
Ltac maintains_step :=
  match goal with
  | |- maintains _ (mbind _ _) => apply maintains_bind; [|intros ?]
  | |- maintains _ (if ?b then _ else _) => destruct b
  | |- maintains _ (match ?x with _ => _ end) => destruct x
  | |- maintains _ (mret _) => apply maintains_ret
  | |- maintains _ (throw _) => apply maintains_throw
  | |- maintains _ (lift _) => apply maintains_lift
  | |- maintains _ (gets _) => apply maintains_gets
  | |- maintains _ (modify _) => apply maintains_modify; intros ? ?; assumption
  | |- maintains _ (call _ _) => apply maintains_call; intros ? ?; assumption
  end.

Ltac solve_maintains := repeat maintains_step.

Section ModelClaims.
Context `{ModelBinding} `{Serializer} `{ScriptRepository} `{Sandbox}.

(** The model manager's operations and [updateModel] never write the
    [validated] flag. *)
Lemma mm_addModelFile_validated b modelFile disableValidation :
  maintains (fun w => validated (logic w) = b)
            (mm_addModelFile modelFile disableValidation).
Proof. unfold mm_addModelFile. solve_maintains. Qed.

Lemma mm_addModelFile_text_validated b content name disableValidation :
  maintains (fun w => validated (logic w) = b)
            (mm_addModelFile_text content name disableValidation).
Proof.
  unfold mm_addModelFile_text. solve_maintains.
  apply mm_addModelFile_validated.
Qed.

Lemma mm_updateModelFile_validated b content name disableValidation :
  maintains (fun w => validated (logic w) = b)
            (mm_updateModelFile content name disableValidation).
Proof. unfold mm_updateModelFile. solve_maintains. Qed.

Lemma mm_deleteModelFile_validated b namespace :
  maintains (fun w => validated (logic w) = b) (mm_deleteModelFile namespace).
Proof. unfold mm_deleteModelFile. solve_maintains. Qed.

Lemma updateModel_maintains_validated b content name :
  maintains (fun w => validated (logic w) = b) (updateModel content name).
Proof.
  unfold updateModel. solve_maintains;
    auto using mm_addModelFile_text_validated, mm_updateModelFile_validated,
               mm_deleteModelFile_validated.
Qed.

(** [updateModel] leaves the [validated] flag as it finds it, on every
    path and whether it returns or throws. *)
Lemma updateModel_keeps_validated content name w :
  validated (logic (updateModel content name w).2) = validated (logic w).
Proof.
  destruct (updateModel content name w) as [r w'] eqn:Hrun.
  by eapply (updateModel_maintains_validated (validated (logic w))) in Hrun.
Qed.

(** After [addModelFile] the flag is [false], whether the call returns
    or throws. *)
Lemma addModelFile_clears_validated content fileName w :
  validated (logic (addModelFile content fileName w).2) = false.
Proof.
  unfold addModelFile. rewrite bind_run. cbn [modify].
  set (w0 := with_logic (set_validated false) w).
  match goal with
  | |- validated (logic (?m w0).2) = _ =>
      assert (maintains (fun w => validated (logic w) = false) m) as Hm;
      [|destruct (m w0) as [r w'] eqn:Hrun; by apply Hm in Hrun]
  end.
  solve_maintains. apply mm_addModelFile_validated.
Qed.

Lemma addModelFile_maintains_unvalidated content fileName :
  maintains (fun w => validated (logic w) = false) (addModelFile content fileName).
Proof.
  intros w r w' _ Hrun.
  pose proof (addModelFile_clears_validated content fileName w) as Hclear.
  by rewrite Hrun in Hclear.
Qed.

(** After [addModelFiles] the flag is [false], whether the call returns
    or throws. *)
Lemma addModelFiles_clears_validated modelFiles modelFileNames w :
  validated (logic (addModelFiles modelFiles modelFileNames w).2) = false.
Proof.
  unfold addModelFiles. rewrite bind_run. cbn [modify].
  set (w0 := with_logic (set_validated false) w).
  match goal with
  | |- validated (logic (?m w0).2) = _ =>
      assert (maintains (fun w => validated (logic w) = false) m) as Hm;
      [|destruct (m w0) as [r w'] eqn:Hrun; by apply Hm in Hrun]
  end.
  apply maintains_bind; [|intros; apply maintains_ret].
  apply maintains_mapM. intros [index content].
  unfold addModelFiles_callback. cbn [fst snd].
  destruct (modelFileNames !! index);
    [apply addModelFile_maintains_unvalidated | apply maintains_throw].
Qed.

(** [validateModelFiles] on a logic manager that is not validated runs
    the model manager's validation once and, when that returns, sets the
    flag. *)
Lemma validateModelFiles_sets_validated w :
  validated (logic w) = false ->
  validateAllModelFiles (modelManager (logic w)) = Ok tt ->
  validateModelFiles w
  = (Ok tt, with_logic (set_validated true) (logged w [EValidateModelFiles])).
Proof.
  intros Hflag Hvalid. unfold validateModelFiles, mm_validateModelFiles.
  rewrite bind_run. cbn [gets]. rewrite Hflag. cbn [negb].
  rewrite !bind_run. cbn [gets]. rewrite call_run, Hvalid. reflexivity.
Qed.

(** [validateModelFiles] on a validated logic manager does nothing: no
    validation is run and the flag stays set. *)
Lemma validateModelFiles_idempotent w :
  validated (logic w) = true -> validateModelFiles w = (Ok tt, w).
Proof.
  intros Hflag. unfold validateModelFiles. rewrite bind_run. cbn [gets].
  by rewrite Hflag.
Qed.

Lemma has_namespace_In (m : ModelFile) (mm : list ModelFile) :
  In m mm -> has_namespace (getNamespace m) mm = true.
Proof.
  intros Hin. unfold has_namespace. apply existsb_exists.
  exists m. split; [done|]. apply String.eqb_refl.
Qed.

Lemma new_ModelFile_Ok content name ns :
  namespaceOf content = Ok ns ->
  new_ModelFile content name = Ok (mkModelFile name ns content).
Proof. intros Hns. unfold new_ModelFile. by rewrite Hns. Qed.

(** C5, as the code has it.  [updateModel(content, name)] by cases on
    the registered model files that carry the name.  With none, the text
    goes to the model manager's own [addModelFile] under the name as it
    was given and with validation enabled, whether its namespace is built
    in or not: a text that does not parse, a namespace that is already
    registered and a model file that fails validation make the call
    throw with the model manager unchanged; otherwise the model file is
    validated and then registered.  Otherwise, with [previous] the first
    of them: if the content equals the content of [previous] the call
    returns and changes nothing; if it differs and declares the namespace
    of [previous], the model file of that namespace is replaced where it
    stands; if it declares another namespace and the call returns, the
    model file of the old namespace is gone and the new one is added, so
    the new namespace is registered and the old one is not. *)
Theorem updateModel_cases (content name : string) (w : world) :
  let models := modelManager (logic w) in
  let named := List.filter (fun x => String.eqb (getName x) name) models in
  (named = [] ->
   (forall e, namespaceOf content = Throw e ->
      updateModel content name w = (Throw e, w)) /\
   (forall ns, namespaceOf content = Ok ns ->
      let added := mkModelFile name ns content in
      (has_namespace ns models = true ->
       exists e, updateModel content name w = (Throw e, w)) /\
      (has_namespace ns models = false ->
       (validateModelFile models added = Ok tt ->
        updateModel content name w
        = (Ok tt,
           with_logic (set_modelManager (models ++ [added]))
                      (logged w [EValidateModelFile ns]))) /\
       (forall e, validateModelFile models added = Throw e ->
          updateModel content name w
          = (Throw e, logged w [EValidateModelFile ns]))))) /\
  (forall previous rest, named = previous :: rest ->
     (content = getDefinitions previous ->
      updateModel content name w = (Ok tt, w)) /\
     (forall ns,
        content <> getDefinitions previous ->
        namespaceOf content = Ok ns ->
        (ns = getNamespace previous ->
         updateModel content name w
         = (Ok tt,
            with_logic
              (set_modelManager
                 (map (fun m => if String.eqb (getNamespace m) ns
                                then mkModelFile name ns content else m)
                      models)) w)) /\
        (ns <> getNamespace previous ->
         forall w', updateModel content name w = (Ok tt, w') ->
           modelManager (logic w')
           = List.filter
               (fun m => negb (String.eqb (getNamespace m) (getNamespace previous)))
               models
             ++ [mkModelFile name ns content] /\
           In ns (map getNamespace (modelManager (logic w'))) /\
           ~ In (getNamespace previous)
                (map getNamespace (modelManager (logic w')))))).
Proof.
  intros models named. split.
  - intros Hnamed.
    assert (updateModel content name w
            = mm_addModelFile_text content name false w) as ->.
    { unfold updateModel. rewrite bind_run. cbn [gets].
      fold models. fold named. by rewrite Hnamed. }
    unfold mm_addModelFile_text. rewrite bind_run.
    unfold new_ModelFile. split.
    + intros e ->. reflexivity.
    + intros ns ->. unfold lift. unfold mm_addModelFile. rewrite bind_run.
      cbn [gets getNamespace]. fold models. split.
      * intros ->. unfold throw. eauto.
      * intros ->. rewrite bind_run, call_run. split.
        -- intros ->. reflexivity.
        -- intros e ->. reflexivity.
  - intros previous rest Hnamed.
    assert (In previous models) as Hin.
    { apply (filter_In (fun x => String.eqb (getName x) name)).
      fold named. rewrite Hnamed. by left. }
    assert (updateModel content name w
            = (if negb (String.eqb content (getDefinitions previous))
               then
                 newModelFile ← lift (new_ModelFile content name);
                 if String.eqb (getNamespace previous) (getNamespace newModelFile)
                 then mm_updateModelFile content name true
                 else mm_deleteModelFile (getNamespace previous) ;;
                      mm_addModelFile_text content name true
               else mret tt) w) as Hunfold.
    { unfold updateModel. rewrite bind_run. cbn [gets].
      fold models. fold named. by rewrite Hnamed. }
    split.
    + intros ->. rewrite Hunfold. by rewrite String.eqb_refl.
    + intros ns Hcontent Hns.
      apply String.eqb_neq in Hcontent. rewrite Hcontent in Hunfold.
      cbn [negb] in Hunfold. rewrite bind_run in Hunfold.
      unfold lift in Hunfold at 1.
      rewrite (new_ModelFile_Ok _ name _ Hns) in Hunfold.
      cbn [getNamespace] in Hunfold.
      split.
      * intros ->. rewrite String.eqb_refl in Hunfold. rewrite Hunfold.
        unfold mm_updateModelFile. rewrite bind_run. unfold lift at 1.
        rewrite (new_ModelFile_Ok _ name _ Hns). rewrite bind_run. cbn [gets].
        fold models. cbn [getNamespace]. by rewrite (has_namespace_In _ _ Hin).
      * intros Hchanged w' Hrun.
        assert (String.eqb (getNamespace previous) ns = false) as Hneq
          by (apply String.eqb_neq; congruence).
        rewrite Hneq in Hunfold. rewrite Hunfold in Hrun. clear Hunfold.
        rewrite bind_run in Hrun. unfold mm_deleteModelFile in Hrun at 1.
        rewrite bind_run in Hrun. cbn [gets] in Hrun. fold models in Hrun.
        rewrite (has_namespace_In _ _ Hin) in Hrun. cbn [modify] in Hrun.
        unfold mm_addModelFile_text in Hrun. rewrite bind_run in Hrun.
        unfold lift in Hrun at 1.
        rewrite (new_ModelFile_Ok _ name _ Hns) in Hrun.
        unfold mm_addModelFile in Hrun. rewrite bind_run in Hrun.
        cbn [gets with_logic logic set_modelManager modelManager getNamespace]
          in Hrun.
        match type of Hrun with
        | (if ?b then _ else _) _ = _ => destruct b; [discriminate|]
        end.
        rewrite bind_run in Hrun. cbn in Hrun. injection Hrun as <-.
        cbn [logic modelManager with_logic set_modelManager]. split; [done|]. split.
        -- rewrite map_app. apply in_or_app. right. by left.
        -- rewrite map_app. intros [Hold|Hold]%in_app_or.
           ++ apply in_map_iff in Hold as (m & Hm & Hfiltered).
              apply filter_In in Hfiltered as [_ Hkeep].
              rewrite <- Hm, String.eqb_refl in Hkeep. discriminate.
           ++ cbn in Hold. destruct Hold as [Hold|[]]. congruence.
Qed.

(** C6, as the code has it.  [addModelFile] clears the [validated] flag
    before it looks at the namespace.  For a model text whose namespace is
    built in, nothing else happens: the call returns, the model manager
    and the log are as before.  For a namespace that is neither built in
    nor registered, the parsed model file is added to the model manager,
    without validation, under the normalised file name. *)
Theorem addModelFile_builtin_or_registered
    (content fileName ns : string) (w : world) :
  namespaceOf content = Ok ns ->
  (In ns (builtInNamespaces (logic w)) ->
   addModelFile content fileName w
   = (Ok tt, with_logic (set_validated false) w)) /\
  (~ In ns (builtInNamespaces (logic w)) ->
   ~ In ns (map getNamespace (modelManager (logic w))) ->
   addModelFile content fileName w
   = (Ok tt,
      with_logic
        (fun lm =>
           set_modelManager
             (modelManager lm ++ [mkModelFile (slash fileName) ns content])
             (set_validated false lm)) w)).
Proof.
  intros Hns.
  assert (forall k : ModelFile -> M unit,
             (modify (with_logic (set_validated false)) ;;
              modelFile ← lift (new_ModelFile content (slash fileName));
              k modelFile) w
             = k (mkModelFile (slash fileName) ns content)
                 (with_logic (set_validated false) w)) as Hstart.
  { intros k. rewrite bind_run. cbn [modify]. rewrite bind_run.
    unfold lift at 1. by rewrite (new_ModelFile_Ok _ _ _ Hns). }
  split.
  - intros Hbuiltin. unfold addModelFile. rewrite Hstart.
    rewrite bind_run. cbn [gets logic with_logic builtInNamespaces
                           set_validated getNamespace].
    assert (existsb (String.eqb ns) (builtInNamespaces (logic w)) = true) as ->.
    { apply existsb_exists. exists ns. split; [done|]. apply String.eqb_refl. }
    reflexivity.
  - intros Hbuiltin Hfresh. unfold addModelFile. rewrite Hstart.
    rewrite bind_run. cbn [gets logic with_logic builtInNamespaces
                           set_validated getNamespace].
    assert (existsb (String.eqb ns) (builtInNamespaces (logic w)) = false) as ->.
    { apply not_true_is_false. intros (x & Hx & Heq)%existsb_exists.
      apply String.eqb_eq in Heq. congruence. }
    cbn [negb]. unfold mm_addModelFile. rewrite bind_run.
    cbn [gets logic with_logic modelManager set_validated getNamespace].
    assert (has_namespace ns (modelManager (logic w)) = false) as ->.
    { apply not_true_is_false. unfold has_namespace.
      intros (m & Hm & Heq)%existsb_exists. apply String.eqb_eq in Heq.
      apply Hfresh. rewrite <- Heq. by apply in_map. }
    reflexivity.
Qed.

End ModelClaims.

(** * Concrete runs

    The theorems above applied to, and the code evaluated on, concrete
    inputs, with the small implementation of the collaborators. *)

Section ConcreteRuns.
#[local] Existing Instance Sample.modelBinding.
#[local] Existing Instance Sample.serializer.
#[local] Existing Instance Sample.scriptRepository.
#[local] Existing Instance Sample.sandbox.

Example trigger_sample :
  (trigger "HelloWorld" Sample.contract Sample.request defaultState
           JUndefined JUndefined JUndefined Sample.world0).1
  = Ok (JObject [("clause", JString "HelloWorld");
                 ("request", Sample.request);
                 ("response", JNull);
                 ("state", defaultState);
                 ("emit", JArray [])]).
Proof. vm_compute. reflexivity. Qed.

(** [trigger_answer_shape] on the sample request. *)
Lemma trigger_answer_shape_witness :
  let run := trigger "HelloWorld" Sample.contract Sample.request defaultState
                     JUndefined JUndefined JUndefined Sample.world0 in
  let answer := JObject [("clause", JString "HelloWorld");
                         ("request", Sample.request);
                         ("response", JNull);
                         ("state", defaultState);
                         ("emit", JArray [])] in
  run = (Ok answer, run.2) /\
  exists (now : Moment) (offset validOptions context : json) (script : Script)
         (callScript : string) (result response newState emit : json)
         (validResponse validNewState : json) (validEmit : list json)
         (w1 w2 w3 : world),
    setCurrentTime JUndefined JUndefined = Ok (now, offset) /\
    runVMScriptCall offset now validOptions context script callScript
      = Ok result /\
    get_property result "__response" = Ok response /\
    get_property result "__state" = Ok newState /\
    get_property result "__emit" = Ok emit /\
    validateOutput response offset w1 = (Ok validResponse, w2) /\
    validateOutput newState offset w2 = (Ok validNewState, w3) /\
    validateOutputArray emit offset w3 = (Ok validEmit, run.2) /\
    answer = JObject [("clause", JString "HelloWorld");
                      ("request", Sample.request);
                      ("response", validResponse);
                      ("state", validNewState);
                      ("emit", JArray validEmit)].
Proof.
  intros run answer.
  assert (run = (Ok answer, run.2)) as Hrun by (vm_compute; reflexivity).
  split; [exact Hrun|].
  exact (trigger_answer_shape "HelloWorld" Sample.contract Sample.request
           defaultState JUndefined JUndefined JUndefined Sample.world0 run.2
           answer Hrun).
Defined.

(** [validateInput_null_or_pipeline] on the sample request. *)
Lemma validateInput_pipeline_witness :
  Sample.request <> JNull /\
  validateInput Sample.request (JNum 0) Sample.world0
  = (Ok (boxColl Sample.request),
     logged Sample.world0
       [EFromJSON Sample.request
          [("validate", JBool false);
           ("acceptResourcesForRelationships", JBool true);
           ("utcOffset", JNum 0)];
        EValidate [("permitResourcesForRelationships", JBool true)];
        EToJSON [("ergo", JBool true);
                 ("permitResourcesForRelationships", JBool true);
                 ("utcOffset", JNum 0)];
        EBoxColl Sample.request]).
Proof.
  assert (Sample.request <> JNull) as Hrequest by discriminate.
  split; [exact Hrequest|].
  exact (proj2 (validateInput_null_or_pipeline (JNum 0) Sample.world0)
               Sample.request Hrequest).
Defined.

(** [validateContract_mutates_options] on an options object the caller
    holds at location 1, with a contract that passes validation. *)
Lemma validateContract_mutates_options_witness :
  let w := Sample.worldWithOptions in
  let o := Sample.callerOptions in
  let run := validateContract Sample.contract (JNum 0)
                              (ArgObject (Shared 1%positive)) w in
  let o' := object_assign o [("ergo", JBool true);
                             ("permitResourcesForRelationships", JBool true)] in
  let checked :=
    exists resource,
      fromJSON (modelManager (logic w)) Sample.contract
        [("validate", JBool false);
         ("acceptResourcesForRelationships", JBool true);
         ("utcOffset", JNum 0)] = Ok resource /\
      validate (modelManager (logic w)) resource
        [("permitResourcesForRelationships", JBool true)] = Ok tt in
  Sample.contract <> JNull /\
  heap w !! 1%positive = Some o /\
  checked /\
  o' = [("convertResourcesToId", JBool true);
        ("ergo", JBool true);
        ("permitResourcesForRelationships", JBool true)] /\
  (checked -> heap run.2 = <[1%positive := o']> (heap w)) /\
  (~ checked -> (exists e, run.1 = Throw e) /\ heap run.2 = heap w) /\
  ((exists r, run.1 = Ok r) -> checked) /\
  lookup_field "ergo" o' = Some (JBool true) /\
  lookup_field "permitResourcesForRelationships" o' = Some (JBool true) /\
  (forall k, k <> "ergo" -> k <> "permitResourcesForRelationships" ->
             lookup_field k o' = lookup_field k o) /\
  (o' = o <->
   lookup_field "ergo" o = Some (JBool true) /\
   lookup_field "permitResourcesForRelationships" o = Some (JBool true)).
Proof.
  intros w o run o' checked.
  assert (Sample.contract <> JNull) as Hcontract by discriminate.
  assert (heap w !! 1%positive = Some o) as Hheap by reflexivity.
  assert checked as Hchecked by (by exists Sample.contract).
  split; [exact Hcontract|]. split; [exact Hheap|]. split; [exact Hchecked|].
  split; [reflexivity|].
  exact (validateContract_mutates_options Sample.contract (JNum 0) 1%positive
           o w Hcontract Hheap).
Defined.

Lemma boxedInput_returned : validateInput_returns Sample.boxedInput.
Proof.
  exists (JObject [("$class", JString "org.accordproject.copyrightlicense.FOO");
                   ("someNumber", JNum 3);
                   ("someArray", JArray [JNum 0; JNum 1; JNum 2]);
                   ("stuff", JString "GRR")]),
         JUndefined, Sample.world0.
  eexists. vm_compute. reflexivity.
Defined.

(** [boxing_round_trip] on that value. *)
Lemma boxing_round_trip_witness :
  (validateInput_returns Sample.boxedInput \/ validateOutput_returns Sample.boxedInput) /\
  unboxColl (boxColl Sample.boxedInput) = Sample.boxedInput /\
  (validateInput_returns Sample.boxedInput ->
   boxColl (unboxColl Sample.boxedInput) = Sample.boxedInput) /\
  (forall n, (0 <= n)%Z -> boxColl (JNum n) = JObject [("$nat", JNum n)]) /\
  (forall items,
      boxColl (JArray items)
      = JObject [("$coll", JArray (map boxColl items));
                 ("$length", JNum (Z.of_nat (length items)))]).
Proof.
  split; [left; exact boxedInput_returned|].
  exact (boxing_round_trip Sample.boxedInput (or_introl boxedInput_returned)).
Defined.

(** C8 as stated fails on the values [validateOutput] returns: the
    number 5 passes through it unchanged, and boxing after unboxing turns
    it into [{"$nat": 5}]; likewise a wire value that holds an array comes
    back from boxing after unboxing with the array wrapped. *)
Lemma boxing_not_inverse_on_output :
  let wire := JObject [("$class", JString "org.accordproject.helloworld.Response");
                       ("lines", JArray [JString "Hello"; JString "World"])] in
  validateOutput (JNum 5) JUndefined Sample.world0 = (Ok (JNum 5), Sample.world0) /\
  validateOutput_returns (JNum 5) /\
  boxColl (unboxColl (JNum 5)) = JObject [("$nat", JNum 5)] /\
  boxColl (unboxColl (JNum 5)) <> JNum 5 /\
  (validateOutput wire JUndefined Sample.world0).1 = Ok wire /\
  boxColl (unboxColl wire)
  = JObject [("$class", JString "org.accordproject.helloworld.Response");
             ("lines", JObject [("$coll", JArray [JString "Hello"; JString "World"]);
                                ("$length", JNum 2)])] /\
  boxColl (unboxColl wire) <> wire.
Proof.
  intros wire. split; [reflexivity|]. split; [|repeat split; try reflexivity].
  - exists (JNum 5), JUndefined, Sample.world0, Sample.world0. reflexivity.
  - discriminate.
  - discriminate.
Qed.


Example second_call_returns :
  (run_invocation "HelloWorld"
     (Invoke "helloworld" Sample.contract
             (JObject [("request", Sample.request)]) defaultState
             JUndefined JUndefined JUndefined ArgNull)
     (run_invocation "HelloWorld"
        (Trigger Sample.contract Sample.request defaultState
                 JUndefined JUndefined JUndefined)
        Sample.world0).2).1
  = Ok (JObject [("clause", JString "HelloWorld");
                 ("params", JObject [("request", Sample.request)]);
                 ("response", JNull);
                 ("state", defaultState);
                 ("emit", JArray [])]).
Proof. vm_compute. reflexivity. Qed.

(** A [null] contract: the validations and the compilation run, the
    script is cached, and building the context throws. *)
Example trigger_null_contract_sample :
  let run := trigger "HelloWorld" JNull Sample.request defaultState
                     JUndefined JUndefined JUndefined Sample.world0 in
  run.1 = Throw (TypeError "Cannot read property 'serialized' of null") /\
  scripts (engine run.2) !! "HelloWorld" = Some "function __dispatch() {}" /\
  compile_count (trace run.2) = 1.
Proof. intros run. repeat split; vm_compute; reflexivity. Qed.

(** [updateModel_cases] on a model text that moves the model named
    model.cto from the namespace org.acme.test to org.acme.next. *)
Lemma updateModel_cases_witness :
  let content := "namespace org.acme.next concept Foo {}" in
  let run := updateModel content "model.cto" Sample.validatedWorld in
  let models := modelManager (logic Sample.validatedWorld) in
  List.filter (fun x => String.eqb (getName x) "model.cto") models
    = [Sample.acmeModel] /\
  content <> getDefinitions Sample.acmeModel /\
  namespaceOf content = Ok "org.acme.next" /\
  "org.acme.next" <> getNamespace Sample.acmeModel /\
  run = (Ok tt, run.2) /\
  modelManager (logic run.2)
  = List.filter
      (fun m => negb (String.eqb (getNamespace m) (getNamespace Sample.acmeModel)))
      models
    ++ [mkModelFile "model.cto" "org.acme.next" content] /\
  In "org.acme.next" (map getNamespace (modelManager (logic run.2))) /\
  ~ In (getNamespace Sample.acmeModel)
       (map getNamespace (modelManager (logic run.2))).
Proof.
  intros content run models.
  assert (List.filter (fun x => String.eqb (getName x) "model.cto") models
          = [Sample.acmeModel]) as Hnamed by reflexivity.
  assert (content <> getDefinitions Sample.acmeModel) as Hcontent by discriminate.
  assert (namespaceOf content = Ok "org.acme.next") as Hns by reflexivity.
  assert ("org.acme.next" <> getNamespace Sample.acmeModel) as Hchanged
    by discriminate.
  assert (run = (Ok tt, run.2)) as Hrun by (vm_compute; reflexivity).
  split; [exact Hnamed|]. split; [exact Hcontent|]. split; [exact Hns|].
  split; [exact Hchanged|]. split; [exact Hrun|].
  exact (proj2 (proj2 (proj2 (updateModel_cases content "model.cto"
                                Sample.validatedWorld)
                             Sample.acmeModel [] Hnamed)
                      "org.acme.next" Hcontent Hns)
               Hchanged run.2 Hrun).
Defined.

(** C5 as stated fails on a name that is not registered: there
    [updateModel] is not [addModelFile].  For a model text of a new
    namespace, [updateModel] has the model manager validate the file and
    registers it under the name as given, where [addModelFile] validates
    nothing and registers it under the normalised name; for a model text
    of a built-in namespace, [updateModel] hands it to the model manager,
    which refuses it, where [addModelFile] returns without a trace. *)
Lemma updateModel_is_not_addModelFile :
  let content := "namespace org.acme.next concept Foo {}" in
  let name := "models\next.cto" in
  let builtin := "namespace org.accordproject.base concept Extra {}" in
  let w := Sample.world0 in
  let models := modelManager (logic w) in
  List.filter (fun x => String.eqb (getName x) name) models = [] /\
  (updateModel content name w).1 = Ok tt /\
  (addModelFile content name w).1 = Ok tt /\
  modelManager (logic (updateModel content name w).2)
  = [Sample.baseModel; mkModelFile "models\next.cto" "org.acme.next" content] /\
  modelManager (logic (addModelFile content name w).2)
  = [Sample.baseModel; mkModelFile "models/next.cto" "org.acme.next" content] /\
  trace (updateModel content name w).2 = [EValidateModelFile "org.acme.next"] /\
  trace (addModelFile content name w).2 = [] /\
  updateModel content name w <> addModelFile content name w /\
  List.filter (fun x => String.eqb (getName x) "extra.cto") models = [] /\
  (updateModel builtin "extra.cto" w).1 = Throw (Error "namespace already exists") /\
  (addModelFile builtin "extra.cto" w).1 = Ok tt /\
  updateModel builtin "extra.cto" w <> addModelFile builtin "extra.cto" w.
Proof.
  intros content name builtin w models.
  repeat split; try (vm_compute; reflexivity).
  - intros Heq. apply (f_equal (fun run => trace run.2)) in Heq.
    vm_compute in Heq. discriminate.
  - intros Heq. apply (f_equal fst) in Heq. vm_compute in Heq. discriminate.
Qed.

(** [addModelFile_builtin_or_registered] on a model text of the built-in
    namespace. *)
Lemma addModelFile_builtin_witness :
  let content := "namespace org.accordproject.base" in
  let ns := "org.accordproject.base" in
  let w := Sample.validatedWorld in
  namespaceOf content = Ok ns /\
  (In ns (builtInNamespaces (logic w)) ->
   addModelFile content "base.cto" w
   = (Ok tt, with_logic (set_validated false) w)) /\
  (~ In ns (builtInNamespaces (logic w)) ->
   ~ In ns (map getNamespace (modelManager (logic w))) ->
   addModelFile content "base.cto" w
   = (Ok tt,
      with_logic
        (fun lm =>
           set_modelManager
             (modelManager lm ++ [mkModelFile (slash "base.cto") ns content])
             (set_validated false lm)) w)).
Proof.
  intros content ns w.
  assert (namespaceOf content = Ok ns) as Hns by reflexivity.
  split; [exact Hns|].
  exact (addModelFile_builtin_or_registered content "base.cto" ns w Hns).
Defined.

(** C6 as stated fails on the [validated] flag: adding a model of a
    built-in namespace to a validated logic manager returns, leaves the
    model manager alone, and clears the flag, so the logic manager is not
    as it was. *)
Lemma addModelFile_builtin_clears_validated :
  let run := addModelFile "namespace org.accordproject.base" "base.cto"
                          Sample.validatedWorld in
  namespaceOf "namespace org.accordproject.base" = Ok "org.accordproject.base" /\
  In "org.accordproject.base" (builtInNamespaces (logic Sample.validatedWorld)) /\
  run.1 = Ok tt /\
  modelManager (logic run.2) = modelManager (logic Sample.validatedWorld) /\
  validated (logic Sample.validatedWorld) = true /\
  validated (logic run.2) = false /\
  run.2 <> Sample.validatedWorld.
Proof.
  intros run. repeat split; try reflexivity.
  - by left.
  - intros Heq. apply (f_equal (fun w => validated (logic w))) in Heq.
    vm_compute in Heq. discriminate.
Qed.

(** C3 as stated fails on the parameters and on the other entry points:
    [init] hands the caller's parameters to [invoke], so its answer
    differs from that of [invoke] on the empty record; and [calculate]
    too calls [invoke] with the default state. *)
Lemma init_passes_caller_params :
  let params := JObject [("greeting", JString "Hello")] in
  init "HelloWorld" Sample.contract params JUndefined JUndefined JUndefined
       Sample.world0
  <> invoke "HelloWorld" "init" Sample.contract (JObject []) defaultState
            JUndefined JUndefined JUndefined ArgNull Sample.world0 /\
  (init "HelloWorld" Sample.contract params JUndefined JUndefined JUndefined
        Sample.world0).1
  = Ok (JObject [("clause", JString "HelloWorld");
                 ("params", params);
                 ("response", JNull);
                 ("state", defaultState);
                 ("emit", JArray [])]) /\
  calculate "HelloWorld" "total" Sample.contract JUndefined JUndefined JUndefined
            Sample.world0
  = invoke "HelloWorld" "total" Sample.contract (JObject []) defaultState
           JUndefined JUndefined (JObject [])
           (ArgObject (Local [("convertResourcesToId", JBool true)]))
           Sample.world0.
Proof.
  intros params. split; [|split].
  - intros Heq. apply (f_equal fst) in Heq. vm_compute in Heq. discriminate.
  - vm_compute. reflexivity.
  - reflexivity.
Qed.

(** C4 on [updateModel]: a validated logic manager whose model named
    model.cto is replaced by another text of the same namespace stays
    flagged as validated, although the new text was registered with
    validation disabled and nothing was validated. *)
Lemma updateModel_leaves_validated_set :
  let content := "namespace org.acme.test concept Bar {}" in
  let run := updateModel content "model.cto" Sample.validatedWorld in
  validated (logic Sample.validatedWorld) = true /\
  run.1 = Ok tt /\
  modelManager (logic run.2)
  = [Sample.baseModel; mkModelFile "model.cto" "org.acme.test" content] /\
  trace run.2 = [] /\
  validated (logic run.2) = true.
Proof. intros content run. repeat split; vm_compute; reflexivity. Qed.

End ConcreteRuns.

(** * Further properties *)

(** ** What a call leaves alone *)

Section FrameFacts.
Context `{ModelBinding} `{Serializer} `{ScriptRepository} `{Sandbox}.

Lemma maintains_foldM I {A B : Type} (f : A -> B -> M A) (acc : A) (items : list B) :
  (forall a x, maintains I (f a x)) -> maintains I (foldM f acc items).
Proof.
  intros Hf. revert acc. induction items as [|x items IH]; intros acc; cbn [foldM].
  - apply maintains_ret.
  - apply maintains_bind; [apply Hf|]. intros acc'. apply IH.
Qed.

Lemma maintains_weaken (I : world -> Prop) {A : Type} (m : M A) w r w' :
  maintains I m -> I w -> m w = (r, w') -> I w'.
Proof. intros Hm HI Hrun. eapply Hm; eauto. Qed.

(** A sequence fails when its first part fails, and when its first part
    keeps the invariant and every continuation fails. *)
Lemma fails_keeping_bind_l I {A B : Type} (m : M A) (f : A -> M B) :
  fails_keeping I m -> fails_keeping I (m ≫= f).
Proof.
  intros Hm w HI. destruct (Hm w HI) as (e & w' & Hrun & HI').
  exists e, w'. split; [|done]. by rewrite bind_run, Hrun.
Qed.

Lemma fails_keeping_bind_r I {A B : Type} (m : M A) (f : A -> M B) :
  maintains I m -> (forall a, fails_keeping I (f a)) ->
  fails_keeping I (m ≫= f).
Proof.
  intros Hm Hf w HI. rewrite bind_run.
  destruct (m w) as [[a|e] w1] eqn:Hrun.
  - apply Hf. eapply Hm; eauto.
  - exists e, w1. split; [done|]. eapply Hm; eauto.
Qed.

Lemma fails_keeping_throw I {A : Type} (e : error) :
  fails_keeping I (throw (A := A) e).
Proof. intros w HI. by exists e, w. Qed.

Lemma fails_keeping_lift I {A : Type} (e : error) :
  fails_keeping I (lift (A := A) (Throw e)).
Proof. intros w HI. by exists e, w. Qed.

End FrameFacts.

(** Proves [maintains I m] by following the structure of [m]; the side
    conditions are closed from the hypotheses on [I] in the context. *)
Ltac frame_step :=
  match goal with
  | |- maintains _ (mbind _ _) => apply maintains_bind; [|intros ?]
  | |- maintains _ (if ?b then _ else _) => destruct b
  | |- maintains _ (match ?x with _ => _ end) => destruct x
  | |- maintains _ (mret _) => apply maintains_ret
  | |- maintains _ (throw _) => apply maintains_throw
  | |- maintains _ (lift _) => apply maintains_lift
  | |- maintains _ (gets _) => apply maintains_gets
  | |- maintains _ (modify _) => apply maintains_modify; solve [auto]
  | |- maintains _ (call _ _) => apply maintains_call; solve [auto]
  | |- maintains _ (mapM _ _) => apply maintains_mapM; intros ?
  | |- maintains _ (foldM _ _ _) => apply maintains_foldM; intros ? ?
  end.

Ltac solve_frame := repeat frame_step.

Section FrameLemmas.
Context `{ModelBinding} `{Serializer} `{ScriptRepository} `{Sandbox}.
Variable I : world -> Prop.
Hypothesis I_trace : forall w f, I w -> I (with_trace f w).

Lemma frame_call_boxColl input : maintains I (call_boxColl input).
Proof. unfold call_boxColl. solve_frame. Qed.

Lemma frame_validateInput input utcOffset :
  maintains I (validateInput input utcOffset).
Proof.
  unfold validateInput, call_fromJSON, call_validate, call_toJSON, call_boxColl.
  solve_frame.
Qed.

Lemma frame_validateInputRecord input utcOffset :
  maintains I (validateInputRecord input utcOffset).
Proof.
  unfold validateInputRecord. solve_frame.
  unfold validateInputRecord_step. solve_frame.
  apply frame_validateInput.
Qed.

Lemma frame_validateOutput output utcOffset :
  maintains I (validateOutput output utcOffset).
Proof.
  unfold validateOutput, call_fromJSON, call_validate, call_toJSON,
    call_unboxColl.
  solve_frame.
Qed.

Lemma frame_validateOutputArray output utcOffset :
  maintains I (validateOutputArray output utcOffset).
Proof.
  unfold validateOutputArray, call_unboxColl. solve_frame.
  apply frame_validateOutput.
Qed.

Lemma frame_validateResult result offset :
  maintains I (validateResult result offset).
Proof.
  unfold validateResult.
  solve_frame; auto using frame_validateOutput, frame_validateOutputArray.
Qed.

Lemma frame_getDispatchCall : maintains I getDispatchCall.
Proof. unfold getDispatchCall. solve_frame. Qed.

Lemma frame_getInvokeCall clauseName : maintains I (getInvokeCall clauseName).
Proof. unfold getInvokeCall. solve_frame. Qed.

(** [validateContract] on options that are not an object of the
    caller. *)
Lemma frame_validateContract_local contract utcOffset options :
  (forall l, options <> ArgObject (Shared l)) ->
  maintains I (validateContract contract utcOffset options).
Proof.
  intros Hlocal. unfold validateContract.
  assert (exists o, options_or_empty options = Local o) as [o ->].
  { destruct options as [ | |[l|o]]; cbn; eauto. by destruct (Hlocal l). }
  unfold call_fromJSON, call_validate, call_toJSON, call_boxColl, assign_object.
  solve_frame.
Qed.

(** [validateContract] when the invariant does not look at the heap. *)
Lemma frame_validateContract_heap contract utcOffset options :
  (forall w f, I w -> I (with_heap f w)) ->
  maintains I (validateContract contract utcOffset options).
Proof.
  intros I_heap. unfold validateContract, call_fromJSON, call_validate,
    call_toJSON, call_boxColl, assign_object.
  solve_frame.
Qed.

(** [cacheJsScript] when the invariant does not look at the engine. *)
Lemma frame_cacheJsScript scriptManager contractId :
  (forall w f, I w -> I (with_engine f w)) ->
  maintains I (cacheJsScript scriptManager contractId).
Proof. intros I_engine. unfold cacheJsScript. solve_frame. Qed.

End FrameLemmas.

(** Extends [solve_frame] with the lemmas on the validation functions. *)
Ltac frame_auto :=
  repeat first
    [ frame_step
    | match goal with
      | |- maintains _ _ =>
          solve [ eauto 4 using frame_call_boxColl, frame_validateInput,
                    frame_validateInputRecord, frame_validateOutput,
                    frame_validateOutputArray, frame_validateResult,
                    frame_getDispatchCall, frame_getInvokeCall ]
      end ].

Section EntryPointFrames.
Context `{ModelBinding} `{Serializer} `{ScriptRepository} `{Sandbox}.

(** The cache after some calls on [contractId]: as it was, or with one
    more entry, for [contractId], which the lookup did not find. *)
Lemma cacheJsScript_grows (e : Engine) scriptManager contractId :
  maintains (fun w => scripts (engine w) = scripts e \/
                      exists script,
                        lookup_script e contractId = None /\
                        scripts (engine w) = <[contractId := script]> (scripts e))
            (cacheJsScript scriptManager contractId).
Proof.
  intros w r w' HI Hrun.
  destruct (lookup_script (engine w) contractId) as [script|] eqn:Hlookup.
  - rewrite (cacheJsScript_hit _ _ _ _ Hlookup) in Hrun.
    by injection Hrun as _ <-.
  - destruct HI as [Hsame|(script & _ & Hgrown)].
    + destruct (cacheJsScript_miss_outcome _ _ _ _ _ Hlookup Hrun)
        as [(source & script & _ & _ & _ & ->)|(e' & _ & _ & ->)].
      * right. exists script. cbn [scripts]. rewrite Hsame. split; [|done].
        apply lookup_script_None in Hlookup as [Hown Hname].
        apply lookup_script_None. by rewrite <- Hsame.
      * by left.
    + apply lookup_script_None in Hlookup as [Hown _].
      rewrite Hgrown, lookup_insert_eq in Hown. discriminate.
Qed.

Lemma frame_trigger (I : world -> Prop) contractId
    contract request state currentTime utcOffset options :
  (forall w f, I w -> I (with_trace f w)) ->
  (forall scriptManager, maintains I (cacheJsScript scriptManager contractId)) ->
  maintains I (trigger contractId contract request state currentTime utcOffset
                       options).
Proof.
  intros I_trace I_cache. unfold trigger. frame_auto.
  apply frame_validateContract_local; [done | discriminate].
Qed.

Lemma frame_invoke (I : world -> Prop) contractId clauseName
    contract params state currentTime utcOffset options validateOptions :
  (forall w f, I w -> I (with_trace f w)) ->
  (forall scriptManager, maintains I (cacheJsScript scriptManager contractId)) ->
  (forall offset, maintains I (validateContract contract offset validateOptions)) ->
  maintains I (invoke contractId clauseName contract params state currentTime
                      utcOffset options validateOptions).
Proof. intros I_trace I_cache I_contract. unfold invoke. frame_auto. Qed.

End EntryPointFrames.

Section EntryPointFrameTheorems.
Context `{ModelBinding} `{Serializer} `{ScriptRepository} `{Sandbox}.

Lemma trigger_frame
    (contractId : string)
    (contract request state currentTime utcOffset options : json)
    (w w' : world) (r : result json) :
  trigger contractId contract request state currentTime utcOffset options w
    = (r, w') ->
  logic w' = logic w /\
  (scripts (engine w') = scripts (engine w) \/
   exists script,
     lookup_script (engine w) contractId = None /\
     scripts (engine w') = <[contractId := script]> (scripts (engine w))).
Proof.
  intros Hrun. split.
  - eapply (frame_trigger (fun w0 => logic w0 = logic w)); [ | | | exact Hrun];
      [done | | done].
    intros scriptManager. by apply frame_cacheJsScript.
  - eapply (frame_trigger
              (fun w0 => scripts (engine w0) = scripts (engine w) \/
                         exists script,
                           lookup_script (engine w) contractId = None /\
                           scripts (engine w0)
                           = <[contractId := script]> (scripts (engine w))));
      [ | | | exact Hrun]; [done | | by left].
    intros scriptManager. apply cacheJsScript_grows.
Qed.

(** X1. [trigger] writes no field of the logic manager and at most one
    entry of the script cache: however it ends, the logic manager is as
    before, and the cache is as before or has gained exactly the entry of
    [contractId], which the lookup did not find. *)
Theorem trigger_changes_only_the_cache
    (contractId : string)
    (contract request state currentTime utcOffset options : json)
    (w : world) :
  let after :=
    (trigger contractId contract request state currentTime utcOffset options
             w).2 in
  logic after = logic w /\
  (scripts (engine after) = scripts (engine w) \/
   exists script,
     lookup_script (engine w) contractId = None /\
     scripts (engine after) = <[contractId := script]> (scripts (engine w))).
Proof.
  intros after. subst after.
  destruct (trigger _ _ _ _ _ _ _ w) as [r w'] eqn:Hrun.
  exact (trigger_frame _ _ _ _ _ _ _ _ _ _ Hrun).
Qed.

Lemma invoke_frame
    (contractId clauseName : string)
    (contract params state currentTime utcOffset options : json)
    (validateOptions : optarg) (w w' : world) (r : result json) :
  invoke contractId clauseName contract params state currentTime utcOffset
         options validateOptions w = (r, w') ->
  logic w' = logic w /\
  (scripts (engine w') = scripts (engine w) \/
   exists script,
     lookup_script (engine w) contractId = None /\
     scripts (engine w') = <[contractId := script]> (scripts (engine w))).
Proof.
  intros Hrun. split.
  - eapply (frame_invoke (fun w0 => logic w0 = logic w)); [ | | | | exact Hrun];
      [done | | | done].
    + intros scriptManager. by apply frame_cacheJsScript.
    + intros offset. by apply frame_validateContract_heap.
  - eapply (frame_invoke
              (fun w0 => scripts (engine w0) = scripts (engine w) \/
                         exists script,
                           lookup_script (engine w) contractId = None /\
                           scripts (engine w0)
                           = <[contractId := script]> (scripts (engine w))));
      [ | | | | exact Hrun]; [done | | | by left].
    + intros scriptManager. apply cacheJsScript_grows.
    + intros offset. by apply frame_validateContract_heap.
Qed.

(** X2. [invoke] writes no field of the logic manager and at most one
    entry of the script cache: however it ends, the logic manager is as
    before, and the cache is as before or has gained exactly the entry of
    [contractId], which the lookup did not find. *)
Theorem invoke_changes_only_the_cache
    (contractId clauseName : string)
    (contract params state currentTime utcOffset options : json)
    (validateOptions : optarg) (w : world) :
  let after :=
    (invoke contractId clauseName contract params state currentTime utcOffset
            options validateOptions w).2 in
  logic after = logic w /\
  (scripts (engine after) = scripts (engine w) \/
   exists script,
     lookup_script (engine w) contractId = None /\
     scripts (engine after) = <[contractId := script]> (scripts (engine w))).
Proof.
  intros after. subst after.
  destruct (invoke _ _ _ _ _ _ _ _ _ w) as [r w'] eqn:Hrun.
  exact (invoke_frame _ _ _ _ _ _ _ _ _ _ _ _ Hrun).
Qed.

(** X3. [init] and [calculate] write no more than the [invoke] they
    call: however they end, the logic manager is as before, and the
    script cache is as before or has gained exactly the entry of
    [contractId]. *)
Theorem init_and_calculate_change_only_the_cache
    (contractId name : string)
    (contract params currentTime utcOffset options : json)
    (w : world) :
  let after_init :=
    (init contractId contract params currentTime utcOffset options w).2 in
  let after_calculate :=
    (calculate contractId name contract currentTime utcOffset options w).2 in
  let grown after :=
    scripts (engine after) = scripts (engine w) \/
    exists script,
      lookup_script (engine w) contractId = None /\
      scripts (engine after) = <[contractId := script]> (scripts (engine w)) in
  (logic after_init = logic w /\ grown after_init) /\
  (logic after_calculate = logic w /\ grown after_calculate).
Proof.
  intros after_init after_calculate grown. split.
  - subst after_init.
    destruct (init _ _ _ _ _ _ w) as [r w'] eqn:Hrun. unfold init in Hrun.
    by apply invoke_frame in Hrun.
  - subst after_calculate.
    destruct (calculate _ _ _ _ _ _ w) as [r w'] eqn:Hrun.
    unfold calculate in Hrun. by apply invoke_frame in Hrun.
Qed.

End EntryPointFrameTheorems.

(** ** When a call cannot return *)

Section FailureFacts.
Context `{ModelBinding} `{Serializer} `{ScriptRepository} `{Sandbox}.

Lemma get_property_nullish v name :
  nullish v = true -> exists e, get_property v name = Throw e.
Proof. destruct v; try discriminate; intros _; cbn; eauto. Qed.

Lemma fails_keeping_lift_Throw I {A : Type} (r : result A) :
  (exists e, r = Throw e) -> fails_keeping I (lift r).
Proof. intros [e ->]. apply fails_keeping_lift. Qed.

Lemma fails_keeping_call I {A : Type} (ev : event) (r : result A) :
  (forall w f, I w -> I (with_trace f w)) ->
  (exists e, r = Throw e) -> fails_keeping I (call ev r).
Proof.
  intros I_trace [e ->] w HI. exists e, (with_trace (fun t => t ++ [ev]) w).
  split; [apply call_run | by apply I_trace].
Qed.

(** A computation that fails does not return. *)
Lemma fails_keeping_not_Ok I {A : Type} (m : M A) w a w' :
  fails_keeping I m -> I w -> m w <> (Ok a, w').
Proof.
  intros Hm HI Hrun. destruct (Hm w HI) as (e & w1 & Hthrow & _). congruence.
Qed.

(** A quiet computation keeps the engine and the number of compilations
    where they are. *)
Lemma quiet_maintains {A : Type} (m : M A) (e : Engine) (n : nat) :
  quiet_when (fun _ => True) m ->
  maintains (fun w => engine w = e /\ compile_count (trace w) = n) m.
Proof.
  intros Hquiet w r w' [He Hn] Hrun.
  destruct (Hquiet w r w' I Hrun) as [He' Hn']. split; congruence.
Qed.

Lemma trigger_fails_without_request_or_state
    (contractId : string)
    (contract request state currentTime utcOffset options : json)
    (e0 : Engine) (n : nat) :
  nullish request || nullish state = true ->
  fails_keeping (fun w => engine w = e0 /\ compile_count (trace w) = n)
    (trigger contractId contract request state currentTime utcOffset options).
Proof.
  intros Hnullish. unfold trigger.
  apply fails_keeping_bind_r; [apply quiet_maintains; solve_quiet|].
  intros [now offset].
  do 4 (apply fails_keeping_bind_r; [apply quiet_maintains; solve_quiet|];
        intros ?).
  destruct (nullish request) eqn:Hrequest.
  - apply fails_keeping_bind_l, fails_keeping_lift_Throw.
    by apply get_property_nullish.
  - apply fails_keeping_bind_r; [apply quiet_maintains; solve_quiet|].
    intros ?. apply fails_keeping_bind_l, fails_keeping_lift_Throw.
    by apply get_property_nullish.
Qed.

Lemma invoke_fails_without_state
    (contractId clauseName : string)
    (contract params state currentTime utcOffset options : json)
    (validateOptions : optarg) (e0 : Engine) (n : nat) :
  nullish state = true ->
  fails_keeping (fun w => engine w = e0 /\ compile_count (trace w) = n)
    (invoke contractId clauseName contract params state currentTime utcOffset
            options validateOptions).
Proof.
  intros Hnullish. unfold invoke.
  apply fails_keeping_bind_r; [apply quiet_maintains; solve_quiet|].
  intros [now offset].
  do 4 (apply fails_keeping_bind_r; [apply quiet_maintains; solve_quiet|];
        intros ?).
  apply fails_keeping_bind_l, fails_keeping_lift_Throw.
  by apply get_property_nullish.
Qed.

(** X4. [trigger] with a request or a state that is [null] or
    [undefined] throws, and does so before the script cache is consulted:
    nothing is compiled and the engine is as before.  A [null] request
    passes [validateInput] and fails where its [$class] is read. *)
Theorem trigger_needs_request_and_state
    (contractId : string)
    (contract request state currentTime utcOffset options : json)
    (w : world) :
  nullish request || nullish state = true ->
  exists e w',
    trigger contractId contract request state currentTime utcOffset options w
      = (Throw e, w') /\
    engine w' = engine w /\
    compile_count (trace w') = compile_count (trace w).
Proof.
  intros Hnullish.
  destruct (trigger_fails_without_request_or_state contractId contract request
              state currentTime utcOffset options (engine w)
              (compile_count (trace w)) Hnullish w)
    as (e & w' & Hrun & He & Hn); [done|].
  by exists e, w'.
Qed.

(** X5. [invoke] with a state that is [null] or [undefined] throws
    before the script cache is consulted: nothing is compiled and the
    engine is as before. *)
Theorem invoke_needs_state
    (contractId clauseName : string)
    (contract params state currentTime utcOffset options : json)
    (validateOptions : optarg) (w : world) :
  nullish state = true ->
  exists e w',
    invoke contractId clauseName contract params state currentTime utcOffset
           options validateOptions w = (Throw e, w') /\
    engine w' = engine w /\
    compile_count (trace w') = compile_count (trace w).
Proof.
  intros Hnullish.
  destruct (invoke_fails_without_state contractId clauseName contract params
              state currentTime utcOffset options validateOptions (engine w)
              (compile_count (trace w)) Hnullish w)
    as (e & w' & Hrun & He & Hn); [done|].
  by exists e, w'.
Qed.

(** [getDispatchCall] fails on a target other than es6 and when the
    logic has no dispatch function. *)
Lemma getDispatchCall_fails lm :
  target lm <> "es6" \/ (exists e, hasDispatch (scriptManager lm) = Throw e) ->
  fails_keeping (fun w => logic w = lm) getDispatchCall.
Proof.
  intros Hcause w Hlogic. unfold getDispatchCall. rewrite bind_run. cbn [gets].
  rewrite Hlogic. destruct (String.eqb (target lm) "es6") eqn:Htarget.
  - destruct Hcause as [Hne|[e He]].
    + apply String.eqb_eq in Htarget. done.
    + rewrite bind_run, call_run, He. eauto.
  - unfold throw. eauto.
Qed.

(** [getInvokeCall] fails on a target other than es6 and without a
    contract name. *)
Lemma getInvokeCall_fails lm clauseName :
  target lm <> "es6" \/ contractName lm = None \/ contractName lm = Some "" ->
  fails_keeping (fun w => logic w = lm) (getInvokeCall clauseName).
Proof.
  intros Hcause w Hlogic. unfold getInvokeCall. rewrite bind_run. cbn [gets].
  rewrite Hlogic. destruct (String.eqb (target lm) "es6") eqn:Htarget.
  - destruct Hcause as [Hne|[Hname|Hname]].
    + apply String.eqb_eq in Htarget. done.
    + rewrite Hname. unfold throw. eauto.
    + rewrite Hname. cbn. unfold throw. eauto.
  - unfold throw. eauto.
Qed.

Lemma trigger_fails_without_dispatch lm
    (contractId : string)
    (contract request state currentTime utcOffset options : json) :
  target lm <> "es6" \/ (exists e, hasDispatch (scriptManager lm) = Throw e) ->
  fails_keeping (fun w => logic w = lm)
    (trigger contractId contract request state currentTime utcOffset options).
Proof.
  intros Hcause.
  assert (forall w f, logic w = lm -> logic (with_trace f w) = lm) as I_trace
    by done.
  unfold trigger.
  apply fails_keeping_bind_r; [frame_auto|]. intros [now offset].
  apply fails_keeping_bind_r; [frame_auto|]. intros ?.
  apply fails_keeping_bind_r;
    [apply frame_validateContract_local; [done|discriminate]|]. intros ?.
  do 5 (apply fails_keeping_bind_r; [frame_auto|]; intros ?).
  apply fails_keeping_bind_r; [by apply frame_cacheJsScript|]. intros ?.
  by apply fails_keeping_bind_l, getDispatchCall_fails.
Qed.

Lemma invoke_fails_without_contract_name lm
    (contractId clauseName : string)
    (contract params state currentTime utcOffset options : json)
    (validateOptions : optarg) :
  target lm <> "es6" \/ contractName lm = None \/ contractName lm = Some "" ->
  fails_keeping (fun w => logic w = lm)
    (invoke contractId clauseName contract params state currentTime utcOffset
            options validateOptions).
Proof.
  intros Hcause.
  assert (forall w f, logic w = lm -> logic (with_trace f w) = lm) as I_trace
    by done.
  unfold invoke.
  apply fails_keeping_bind_r; [frame_auto|]. intros [now offset].
  apply fails_keeping_bind_r; [frame_auto|]. intros ?.
  apply fails_keeping_bind_r; [by apply frame_validateContract_heap|]. intros ?.
  do 4 (apply fails_keeping_bind_r; [frame_auto|]; intros ?).
  apply fails_keeping_bind_r; [by apply frame_cacheJsScript|]. intros ?.
  by apply fails_keeping_bind_l, getInvokeCall_fails.
Qed.

(** X6. [trigger] returns only on a logic manager whose target is es6
    and whose logic has a dispatch function; [invoke] returns only on one
    whose target is es6 and whose contract name is set and not empty. *)
Theorem invocation_needs_target_and_contract
    (contractId : string) (i : invocation) (w w' : world) (answer : json) :
  run_invocation contractId i w = (Ok answer, w') ->
  target (logic w) = "es6" /\
  match i with
  | Trigger _ _ _ _ _ _ => hasDispatch (scriptManager (logic w)) = Ok tt
  | Invoke _ _ _ _ _ _ _ _ =>
      exists name, contractName (logic w) = Some name /\ name <> ""
  end.
Proof.
  intros Hrun.
  destruct i as [contract request state currentTime utcOffset options
                |clauseName contract params state currentTime utcOffset options
                 validateOptions]; cbn [run_invocation] in Hrun.
  - assert (~ (target (logic w) <> "es6" \/
               exists e, hasDispatch (scriptManager (logic w)) = Throw e))
      as Hcause.
    { intros Hcause.
      exact (fails_keeping_not_Ok (fun w0 => logic w0 = logic w) _ w answer w'
               (trigger_fails_without_dispatch _ _ _ _ _ _ _ _ Hcause)
               eq_refl Hrun). }
    split.
    + destruct (String.eqb (target (logic w)) "es6") eqn:Htarget.
      * by apply String.eqb_eq.
      * apply String.eqb_neq in Htarget. destruct Hcause. by left.
    + destruct (hasDispatch (scriptManager (logic w))) as [[]|e] eqn:Hdispatch;
        [done|]. destruct Hcause. right. eauto.
  - assert (~ (target (logic w) <> "es6" \/ contractName (logic w) = None \/
               contractName (logic w) = Some "")) as Hcause.
    { intros Hcause.
      exact (fails_keeping_not_Ok (fun w0 => logic w0 = logic w) _ w answer w'
               (invoke_fails_without_contract_name _ _ _ _ _ _ _ _ _ _ Hcause)
               eq_refl Hrun). }
    split.
    + destruct (String.eqb (target (logic w)) "es6") eqn:Htarget.
      * by apply String.eqb_eq.
      * apply String.eqb_neq in Htarget. destruct Hcause. by left.
    + destruct (contractName (logic w)) as [name|] eqn:Hname.
      * exists name. split; [done|]. intros ->. destruct Hcause. auto.
      * destruct Hcause. auto.
Qed.

(** X7. A call of [trigger] or [invoke] returns only when the run result
    is neither [null] nor [undefined] and carries an [__emit] that, once
    unboxed, is neither [null] nor [undefined]. *)
Theorem invocation_needs_emit
    (contractId : string) (i : invocation) (w w' : world) (answer : json) :
  run_invocation contractId i w = (Ok answer, w') ->
  exists (now : Moment) (offset options context : json) (script : Script)
         (callScript : string) (result emit : json),
    runVMScriptCall offset now options context script callScript = Ok result /\
    nullish result = false /\
    get_property result "__emit" = Ok emit /\
    nullish (unboxColl emit) = false.
Proof.
  intros Hrun.
  destruct i; cbn [run_invocation] in Hrun; unfold trigger, invoke in Hrun;
    split_binds Hrun.
  all: match goal with
       | Hv : validateResult _ _ _ = (Ok _, _) |- _ =>
           unfold validateResult in Hv; split_binds Hv
       end.
  all: match goal with
       | Ha : validateOutputArray _ _ _ = (Ok _, _) |- _ =>
           unfold validateOutputArray in Ha; split_binds Ha
       end.
  all: repeat match goal with
       | Hs : lift _ _ = (Ok _, _) |- _ => apply lift_Ok in Hs as [Hs ->]
       | Hs : call _ _ _ = (Ok _, _) |- _ => apply call_Ok in Hs as [Hs ->]
       | Hs : call_unboxColl _ _ = (Ok _, _) |- _ =>
           apply call_unboxColl_Ok in Hs as [-> ->]
       end.
  all: match goal with
       | Hr : runVMScriptCall _ _ _ _ _ _ = Ok ?result,
         He : get_property ?result "__emit" = Ok ?emit,
         Hi : indexed_elements (unboxColl ?emit) = Ok _ |- _ =>
           do 8 eexists; split; [exact Hr|]; split; [|split; [exact He|]];
           [ by destruct result | by destruct (unboxColl emit) ]
       end.
Qed.

End FailureFacts.

(** ** The script cache, continued *)

Section CacheComposition.
Context `{ModelBinding} `{Serializer} `{ScriptRepository} `{Sandbox}.

(** X8. A compilation that fails is not cached: when [cacheJsScript]
    throws on a miss the engine is as before, and the next call for the
    same contract identifier compiles what the script manager then holds
    and caches it. *)
Theorem failed_compile_is_not_cached
    (first second : ScriptManager) (contractId : string)
    (w w1 : world) (e : error) (source : string) (script : Script) :
  scripts (engine w) !! contractId = None ->
  cacheJsScript first contractId w = (Throw e, w1) ->
  getCompiledJavaScript second = Ok source ->
  compileVMScript source = Ok script ->
  engine w1 = engine w /\
  exists w2,
    cacheJsScript second contractId w1 = (Ok script, w2) /\
    scripts (engine w2) !! contractId = Some script /\
    compile_count (trace w2) = S (compile_count (trace w1)).
Proof.
  intros Hown Hfirst Hsource Hcompile.
  assert (lookup_script (engine w) contractId = None) as Hmiss.
  { destruct (lookup_script (engine w) contractId) as [found|] eqn:Hlookup;
      [|done].
    rewrite (cacheJsScript_hit _ _ _ _ Hlookup) in Hfirst. discriminate. }
  destruct (cacheJsScript_miss_outcome _ _ _ _ _ Hmiss Hfirst)
    as [(? & ? & _ & _ & [=] & _)|(e' & _ & _ & Hengine)].
  split; [done|].
  assert (lookup_script (engine w1) contractId = None) as Hmiss1 by congruence.
  destruct (cacheJsScript second contractId w1) as [r w2] eqn:Hsecond.
  destruct (cacheJsScript_miss_outcome _ _ _ _ _ Hmiss1 Hsecond)
    as [(source' & script' & Hs & Hc & -> & Hengine2)
       |(e2 & [Hs|(source' & Hs & Hc)] & _ & _)]; try congruence.
  assert (script' = script) as -> by congruence.
  exists w2. split; [done|]. split.
  - rewrite Hengine2. cbn [scripts]. apply lookup_insert_eq.
  - by destruct (cacheJsScript_miss _ _ _ _ _ Hmiss1 Hsecond).
Qed.

(** X9. The cache is not refreshed when the logic changes: once
    [cacheJsScript] has returned a script for a contract identifier, a
    later call for that identifier returns the same script and leaves the
    world as it is, whatever script manager it is given; neither the
    script manager nor the compiler is called. *)
Theorem cached_script_is_reused
    (first second : ScriptManager) (contractId : string)
    (w w1 : world) (script : Script) :
  cacheJsScript first contractId w = (Ok script, w1) ->
  cacheJsScript second contractId w1 = (Ok script, w1).
Proof.
  intros Hfirst. apply cacheJsScript_hit.
  destruct (lookup_script (engine w) contractId) as [cached|] eqn:Hlookup.
  - rewrite (cacheJsScript_hit _ _ _ _ Hlookup) in Hfirst.
    injection Hfirst as <- <-. done.
  - destruct (cacheJsScript_miss _ _ _ _ _ Hlookup Hfirst) as [Hstored _].
    apply lookup_script_own. rewrite Hstored. apply lookup_insert_eq.
Qed.

(** X10. [clearCacheJsScript] leaves a cache without entries, in which
    the lookup still finds the names every object inherits.  After it,
    [cacheJsScript] on such a name returns the inherited member, compiles
    nothing and stores nothing, whatever the script manager holds; on
    every other contract identifier a [cacheJsScript] that returns has
    compiled once more what the script manager holds, and the cache holds
    that script and nothing else. *)
Theorem clear_then_cache_compiles_again
    (scriptManager : ScriptManager) (contractId : string) (w : world) :
  let cleared := (clearCacheJsScript w).2 in
  scripts (engine cleared) = ∅ /\
  (inherited contractId = true ->
   cacheJsScript scriptManager contractId cleared
   = (Ok (prototypeMember contractId), cleared)) /\
  (inherited contractId = false ->
   forall script w',
     cacheJsScript scriptManager contractId cleared = (Ok script, w') ->
     (exists source,
         getCompiledJavaScript scriptManager = Ok source /\
         compileVMScript source = Ok script) /\
     compile_count (trace w') = S (compile_count (trace w)) /\
     scripts (engine w') = {[ contractId := script ]}).
Proof.
  intros cleared. split; [done|]. split.
  - intros Hname. apply cacheJsScript_hit.
    by apply lookup_script_inherited.
  - intros Hname script w' Hrun.
    assert (lookup_script (engine cleared) contractId = None) as Hmiss
      by (by apply lookup_script_None).
    destruct (cacheJsScript_miss _ _ _ _ _ Hmiss Hrun) as [Hcache Hcount].
    destruct (cacheJsScript_miss_outcome _ _ _ _ _ Hmiss Hrun)
      as [(source & script' & Hsource & Hcompile & [= <-] & _)
         |(e & _ & [=] & _)].
    split; [eauto|]. split; [exact Hcount|]. rewrite Hcache. reflexivity.
Qed.

(** An engine whose compiler and runner throw cannot run a call. *)
Lemma invocation_fails_when_engine_throws
    (contractId : string) (i : invocation) (e0 : Engine) :
  (forall source, exists e, compileVMScript source = Throw e) ->
  (forall offset now options context script callScript,
      exists e, runVMScriptCall offset now options context script callScript
                = Throw e) ->
  fails_keeping (fun w => engine w = e0) (run_invocation contractId i).
Proof.
  intros Hcompile Hrun.
  assert (forall w f, engine w = e0 -> engine (with_trace f w) = e0) as I_trace
    by done.
  assert (forall scriptManager,
             maintains (fun w => engine w = e0)
                       (cacheJsScript scriptManager contractId)) as I_cache.
  { intros scriptManager w r w' He Hcache.
    destruct (lookup_script (engine w) contractId) as [cached|] eqn:Hlookup.
    - rewrite (cacheJsScript_hit _ _ _ _ Hlookup) in Hcache.
      by injection Hcache as _ <-.
    - destruct (cacheJsScript_miss_outcome _ _ _ _ _ Hlookup Hcache)
        as [(source & script & _ & Hc & _)|(e & _ & _ & ->)]; [|done].
      destruct (Hcompile source) as [e He']. congruence. }
  destruct i; cbn [run_invocation]; unfold trigger, invoke.
  - apply fails_keeping_bind_r; [frame_auto|]. intros [now offset].
    apply fails_keeping_bind_r; [frame_auto|]. intros ?.
    apply fails_keeping_bind_r;
      [apply frame_validateContract_local; [done|discriminate]|]. intros ?.
    do 5 (apply fails_keeping_bind_r; [frame_auto|]; intros ?).
    apply fails_keeping_bind_r; [apply I_cache|]. intros ?.
    do 2 (apply fails_keeping_bind_r; [frame_auto|]; intros ?).
    apply fails_keeping_bind_l, fails_keeping_call; [done|apply Hrun].
  - apply fails_keeping_bind_r; [frame_auto|]. intros [now offset].
    apply fails_keeping_bind_r; [frame_auto|]. intros ?.
    apply fails_keeping_bind_r; [by apply frame_validateContract_heap|].
    intros ?.
    do 4 (apply fails_keeping_bind_r; [frame_auto|]; intros ?).
    apply fails_keeping_bind_r; [apply I_cache|]. intros ?.
    do 2 (apply fails_keeping_bind_r; [frame_auto|]; intros ?).
    apply fails_keeping_bind_l, fails_keeping_call; [done|apply Hrun].
Qed.

End CacheComposition.

Section BaseEngine.
Context `{Serializer} `{ScriptRepository}.
Variable base : Sandbox.

(** X11. The base class [Engine] cannot execute: with its
    [compileVMScript] and [runVMScriptCall], every call of [trigger] or
    [invoke] throws, and the script cache is never filled. *)
Theorem base_engine_cannot_execute
    (contractId : string) (i : invocation)
    (w : world (H2 := abstractEngine base)) :
  exists e w',
    run_invocation (H2 := abstractEngine base) contractId i w = (Throw e, w') /\
    engine w' = engine w.
Proof.
  apply (invocation_fails_when_engine_throws (H2 := abstractEngine base)
           contractId i (engine w)); [| |reflexivity].
  - intros source. cbn. eauto.
  - intros offset now options context script callScript. cbn. eauto.
Qed.

End BaseEngine.

(** ** Records and arrays at the validation boundary *)

Section RecordsAndArrays.
Context `{ModelBinding} `{Serializer} `{ScriptRepository} `{Sandbox}.

Lemma set_field_fresh k v (o : jsobj) :
  ~ In k (map fst o) -> set_field k v o = o ++ [(k, v)].
Proof.
  induction o as [|[k' v'] o IH]; intros Hfresh; [done|].
  cbn [set_field]. cbn [map fst In] in Hfresh.
  destruct (String.eqb k k') eqn:E.
  - apply String.eqb_eq in E. destruct Hfresh. by left.
  - cbn. f_equal. apply IH. intros Hin. apply Hfresh. by right.
Qed.

(** What [mapM] returns holds one result per item, in order. *)
Lemma mapM_Ok_Forall2 {A B : Type} (f : A -> M B) items w results w' :
  mapM f items w = (Ok results, w') ->
  Forall2 (fun x y => exists w1 w2, f x w1 = (Ok y, w2)) items results.
Proof.
  revert w results w'.
  induction items as [|x items IH]; intros w results w' Hrun.
  - injection Hrun as <- _. constructor.
  - cbn [mapM] in Hrun.
    apply bind_Ok in Hrun as (y & w1 & Hx & Hrun).
    apply bind_Ok in Hrun as (ys & w2 & Hitems & Hrun).
    injection Hrun as <- _. constructor; [eauto|]. by eapply IH.
Qed.

Lemma lookup_field_fresh k (o : jsobj) :
  ~ In k (map fst o) -> lookup_field k o = None.
Proof.
  induction o as [|[k' v'] o IH]; intros Hfresh; [done|].
  cbn [lookup_field]. cbn [map fst In] in Hfresh.
  destruct (String.eqb k k') eqn:E.
  - apply String.eqb_eq in E. destruct Hfresh. by left.
  - apply IH. intros Hin. apply Hfresh. by right.
Qed.

(** Assigning a key the object does not own appends a property, unless
    the key is [__proto__]. *)
Lemma assign_field_fresh k v (o : jsobj) :
  ~ In k (map fst o) ->
  assign_field k v o = if String.eqb k "__proto__" then o else o ++ [(k, v)].
Proof.
  intros Hfresh. unfold assign_field. rewrite (lookup_field_fresh _ _ Hfresh).
  destruct (String.eqb k "__proto__"); [done|]. by apply set_field_fresh.
Qed.

Lemma assigned_entries_all (fields : jsobj) :
  ~ In "__proto__" (map fst fields) -> assigned_entries fields = fields.
Proof.
  induction fields as [|[k v] fields IH]; intros Hfresh; [done|].
  cbn [map fst In] in Hfresh. unfold assigned_entries. cbn [List.filter fst].
  destruct (String.eqb k "__proto__") eqn:E.
  - apply String.eqb_eq in E. destruct Hfresh. by left.
  - cbn [negb]. f_equal. apply IH. intros Hin. apply Hfresh. by right.
Qed.

(** The loop of [validateInputRecord] on fields whose keys are distinct
    and not yet in the record. *)
Lemma validateInputRecord_loop utcOffset (fields acc : jsobj) w record w' :
  NoDup (map fst fields) ->
  (forall k, In k (map fst fields) -> ~ In k (map fst acc)) ->
  foldM (validateInputRecord_step utcOffset) acc fields w = (Ok record, w') ->
  exists validated,
    record = acc ++ validated /\
    map fst validated = map fst (assigned_entries fields) /\
    Forall2 (fun kv kv' =>
               if instanceof_Object kv.2
               then exists w1 w2,
                      validateInput kv.2 utcOffset w1 = (Ok kv'.2, w2)
               else kv'.2 = kv.2)
            (assigned_entries fields) validated.
Proof.
  revert acc w w'.
  induction fields as [|[k v] fields IH]; intros acc w w' Hnodup Hfresh Hrun.
  - injection Hrun as <- _. exists []. by rewrite app_nil_r.
  - cbn [foldM] in Hrun. apply bind_Ok in Hrun as (acc' & w1 & Hstep & Hrest).
    cbn [map fst] in Hnodup. apply NoDup_cons in Hnodup as [Hk Hnodup].
    assert (exists v', acc' = assign_field k v' acc /\
              if instanceof_Object v
              then exists w1 w2, validateInput v utcOffset w1 = (Ok v', w2)
              else v' = v) as (v' & -> & Hv').
    { unfold validateInputRecord_step in Hstep. cbn [fst snd] in Hstep.
      destruct (instanceof_Object v).
      - apply bind_Ok in Hstep as (v' & w2 & Hvalid & Hret).
        injection Hret as <- _. exists v'. eauto.
      - injection Hstep as <- _. by exists v. }
    rewrite assign_field_fresh in Hrest by (apply Hfresh; by left).
    unfold assigned_entries. cbn [List.filter fst].
    destruct (String.eqb k "__proto__"); cbn [negb].
    + apply (IH acc w1 w' Hnodup); [|exact Hrest].
      intros k' Hk'. apply Hfresh. by right.
    + destruct (IH (acc ++ [(k, v')]) w1 w' Hnodup)
        as (validated & -> & Hkeys & Hall); [|exact Hrest|].
      * intros k' Hk' Hin. rewrite map_app in Hin.
        apply in_app_or in Hin as [Hin|Hin].
        -- eapply Hfresh; [right; exact Hk'|exact Hin].
        -- cbn in Hin. destruct Hin as [<-|[]]. apply Hk.
           by apply list_elem_of_In.
      * exists ((k, v') :: validated). rewrite <- app_assoc. split; [done|].
        split; [cbn; by f_equal|]. by constructor.
Qed.

(** X12. [validateInputRecord] keeps the shape of the record, but for
    the key [__proto__]: when it returns for a record with distinct keys,
    the result holds the keys of the record other than [__proto__], in
    the same order, and under each of them the caller's value when that
    is not an object (a number, a string, a boolean, [null]) and what
    [validateInput] returned for it otherwise.  The assignment under
    [__proto__] creates no property. *)
Theorem validateInputRecord_keeps_keys
    (fields : jsobj) (utcOffset : json) (w w' : world) (v : json) :
  NoDup (map fst fields) ->
  validateInputRecord (JObject fields) utcOffset w = (Ok v, w') ->
  exists validated,
    v = JObject validated /\
    map fst validated
    = List.filter (fun k => negb (String.eqb k "__proto__")) (map fst fields) /\
    ~ In "__proto__" (map fst validated) /\
    Forall2 (fun kv kv' =>
               if instanceof_Object kv.2
               then exists w1 w2,
                      validateInput kv.2 utcOffset w1 = (Ok kv'.2, w2)
               else kv'.2 = kv.2)
            (assigned_entries fields) validated.
Proof.
  intros Hnodup Hrun. unfold validateInputRecord in Hrun.
  apply bind_Ok in Hrun as (record & w1 & Hloop & Hret).
  injection Hret as <- _. cbn [for_in_entries] in Hloop.
  destruct (validateInputRecord_loop utcOffset fields [] w record w1 Hnodup
              (fun _ _ Hin => Hin) Hloop)
    as (validated & -> & Hkeys & Hall).
  assert (map fst (assigned_entries fields)
          = List.filter (fun k => negb (String.eqb k "__proto__"))
                        (map fst fields)) as Hfilter.
  { clear. induction fields as [|[k v] fields IH]; [done|].
    unfold assigned_entries in *. cbn [List.filter map fst].
    destruct (negb (String.eqb k "__proto__")); cbn [map fst]; by rewrite IH. }
  exists validated. split; [done|]. split; [by rewrite Hkeys|].
  split; [|done]. rewrite Hkeys, Hfilter.
  intros [_ Hkeep]%filter_In. by rewrite String.eqb_refl in Hkeep.
Qed.

(** X13. Parameters without object values need no validation: a record
    with distinct keys whose values are all numbers, strings, booleans or
    [null] comes back from [validateInputRecord] with the entries it had,
    but for the one under [__proto__], so as it is when it has no such
    key; parameters that are [null] or [undefined] come back as the empty
    record; in both cases no collaborator is called and the world is as
    before. *)
Theorem validateInputRecord_scalars_pass
    (params utcOffset : json) (w : world) :
  (forall fields,
      params = JObject fields ->
      NoDup (map fst fields) ->
      Forall (fun kv => instanceof_Object kv.2 = false) fields ->
      validateInputRecord params utcOffset w
      = (Ok (JObject (assigned_entries fields)), w) /\
      (~ In "__proto__" (map fst fields) ->
       validateInputRecord params utcOffset w = (Ok params, w))) /\
  (nullish params = true ->
   validateInputRecord params utcOffset w = (Ok (JObject []), w)).
Proof.
  split.
  - intros fields -> Hnodup Hscalars.
    assert (validateInputRecord (JObject fields) utcOffset w
            = (Ok (JObject (assigned_entries fields)), w)) as Hrun.
    { unfold validateInputRecord. cbn [for_in_entries].
      assert (forall acc,
                 (forall k, In k (map fst fields) -> ~ In k (map fst acc)) ->
                 foldM (validateInputRecord_step utcOffset) acc fields w
                 = (Ok (acc ++ assigned_entries fields), w)) as Hloop.
      { clear -Hnodup Hscalars.
        induction fields as [|[k v] fields IH]; intros acc Hfresh.
        - cbn. by rewrite app_nil_r.
        - cbn [map fst] in Hnodup. apply NoDup_cons in Hnodup as [Hk Hnodup].
          apply Forall_cons in Hscalars as [Hv Hscalars]. cbn [snd] in Hv.
          cbn [foldM]. rewrite bind_run. unfold validateInputRecord_step at 1.
          cbn [fst snd]. rewrite Hv. cbn [mret M_ret].
          rewrite assign_field_fresh by (apply Hfresh; by left).
          unfold assigned_entries. cbn [List.filter fst].
          destruct (String.eqb k "__proto__"); cbn [negb].
          + apply (IH Hnodup Hscalars). intros k' Hk'. apply Hfresh. by right.
          + fold (assigned_entries fields). rewrite (IH Hnodup Hscalars).
            * by rewrite <- app_assoc.
            * intros k' Hk' Hin. rewrite map_app in Hin.
              apply in_app_or in Hin as [Hin|Hin].
              -- eapply Hfresh; [right; exact Hk'|exact Hin].
              -- cbn in Hin. destruct Hin as [<-|[]]. apply Hk.
                 by apply list_elem_of_In. }
      rewrite bind_run, (Hloop [] (fun _ _ Hin => Hin)). reflexivity. }
    split; [exact Hrun|]. intros Hproto.
    by rewrite Hrun, (assigned_entries_all _ Hproto).
  - intros Hnullish. by destruct params.
Qed.

(** X14. [validateOutputArray] returns one validated value per element
    of the unboxed collection, in order: each is what [validateOutput]
    returned for the element at its place. *)
Theorem validateOutputArray_elementwise
    (output utcOffset : json) (w w' : world) (validated : list json) :
  validateOutputArray output utcOffset w = (Ok validated, w') ->
  exists elements,
    indexed_elements (unboxColl output) = Ok elements /\
    length validated = length elements /\
    Forall2 (fun element v =>
               exists w1 w2, validateOutput element utcOffset w1 = (Ok v, w2))
            elements validated.
Proof.
  intros Hrun. unfold validateOutputArray in Hrun. split_binds Hrun.
  match goal with
  | Hs : call_unboxColl _ _ = (Ok _, _) |- _ =>
      apply call_unboxColl_Ok in Hs as [-> ->]
  end.
  match goal with
  | Hs : lift _ _ = (Ok _, _) |- _ => apply lift_Ok in Hs as [Hs ->]
  end.
  match goal with
  | Hs : mapM _ _ _ = (Ok _, _) |- _ => apply mapM_Ok_Forall2 in Hs
  end.
  match type of Hrun with
  | (if ?b then _ else _) _ = _ => destruct b; [discriminate|]
  end.
  injection Hrun as <- _.
  eexists. split; [eassumption|]. split; [|eassumption].
  symmetry. by eapply Forall2_length.
Qed.

End RecordsAndArrays.

(** ** Model management, continued *)

Section ModelComposition.
Context `{ModelBinding} `{Serializer} `{ScriptRepository} `{Sandbox}.

Lemma nothing_added (models : list ModelFile) (P : ModelFile -> Prop) :
  exists added, models = models ++ added /\ Forall P added.
Proof. exists []. split; [by rewrite app_nil_r | constructor]. Qed.

(** However [addModelFile] ends, the built-in namespaces are as before
    and the model manager has gained at most one model file, of a
    namespace that is not built in. *)
Lemma addModelFile_outcome content fileName w :
  let after := (addModelFile content fileName w).2 in
  builtInNamespaces (logic after) = builtInNamespaces (logic w) /\
  exists added,
    modelManager (logic after) = modelManager (logic w) ++ added /\
    Forall (fun m => ~ In (getNamespace m) (builtInNamespaces (logic w))) added.
Proof.
  intros after. subst after.
  destruct (addModelFile content fileName w) as [r w'] eqn:Hrun. cbn [snd].
  unfold addModelFile in Hrun. rewrite bind_run in Hrun. cbn [modify] in Hrun.
  rewrite bind_run in Hrun. unfold lift in Hrun at 1.
  destruct (new_ModelFile content (slash fileName)) as [modelFile|e];
    [|injection Hrun as _ <-; split; [done|apply nothing_added]].
  rewrite bind_run in Hrun.
  cbn [gets with_logic logic builtInNamespaces set_validated] in Hrun.
  destruct (existsb (String.eqb (getNamespace modelFile))
                    (builtInNamespaces (logic w))) eqn:Hbuiltin;
    cbn [negb] in Hrun;
    [injection Hrun as _ <-; split; [done|apply nothing_added]|].
  unfold mm_addModelFile in Hrun. rewrite bind_run in Hrun.
  cbn [gets with_logic logic modelManager set_validated] in Hrun.
  destruct (has_namespace (getNamespace modelFile) (modelManager (logic w)));
    [injection Hrun as _ <-; split; [done|apply nothing_added]|].
  cbn in Hrun. injection Hrun as _ <-. cbn. split; [done|].
  exists [modelFile]. split; [done|].
  constructor; [|constructor]. intros Hin.
  apply not_true_iff_false in Hbuiltin. apply Hbuiltin, existsb_exists.
  exists (getNamespace modelFile). split; [done|]. apply String.eqb_refl.
Qed.

Lemma addModelFile_keeps_builtins builtin models content fileName :
  maintains (fun w => builtInNamespaces (logic w) = builtin /\
                      exists added,
                        modelManager (logic w) = models ++ added /\
                        Forall (fun m => ~ In (getNamespace m) builtin) added)
            (addModelFile content fileName).
Proof.
  intros w r w' [Hbuiltin (added & Hmodels & Hadded)] Hrun.
  pose proof (addModelFile_outcome content fileName w) as Hout.
  rewrite Hrun in Hout. cbn [snd] in Hout.
  destruct Hout as [Hb (added' & Hm & Ha)]. split; [congruence|].
  exists (added ++ added'). split.
  - by rewrite Hm, Hmodels, app_assoc.
  - apply Forall_app. split; [done|]. by rewrite <- Hbuiltin.
Qed.

(** X15. The caller cannot add to the built-in namespaces: however
    [addModelFile] or [addModelFiles] ends, the list of built-in
    namespaces is as before, every model file that was registered is
    still registered at its place, and every model file added is of a
    namespace that is not built in. *)
Theorem built_in_namespaces_are_not_added
    (content fileName : string) (modelFiles modelFileNames : list string)
    (w : world) :
  let after_one := (addModelFile content fileName w).2 in
  let after_all := (addModelFiles modelFiles modelFileNames w).2 in
  (builtInNamespaces (logic after_one) = builtInNamespaces (logic w) /\
   exists added,
     modelManager (logic after_one) = modelManager (logic w) ++ added /\
     Forall (fun m => ~ In (getNamespace m) (builtInNamespaces (logic w)))
            added) /\
  (builtInNamespaces (logic after_all) = builtInNamespaces (logic w) /\
   exists added,
     modelManager (logic after_all) = modelManager (logic w) ++ added /\
     Forall (fun m => ~ In (getNamespace m) (builtInNamespaces (logic w)))
            added).
Proof.
  intros after_one after_all. split; [apply addModelFile_outcome|].
  subst after_all.
  destruct (addModelFiles modelFiles modelFileNames w) as [r w'] eqn:Hrun.
  cbn [snd]. revert Hrun. unfold addModelFiles.
  set (I := fun w0 : world =>
              builtInNamespaces (logic w0) = builtInNamespaces (logic w) /\
              exists added,
                modelManager (logic w0) = modelManager (logic w) ++ added /\
                Forall (fun m => ~ In (getNamespace m)
                                      (builtInNamespaces (logic w))) added).
  intros Hrun. change (I w').
  assert (I w) as HI by (split; [done|apply nothing_added]).
  revert HI Hrun. apply maintains_weaken.
  apply maintains_bind.
  { apply maintains_modify. intros w0 Hw0. exact Hw0. }
  intros _. apply maintains_bind; [|intros; apply maintains_ret].
  apply maintains_mapM. intros [index text]. unfold addModelFiles_callback.
  cbn [fst snd]. destruct (modelFileNames !! index).
  - apply addModelFile_keeps_builtins.
  - apply maintains_throw.
Qed.

(** X16. [addModelFiles] with fewer file names than model files does not
    return: it throws, at the latest when it reads the missing name. *)
Theorem addModelFiles_needs_a_name_per_file
    (modelFiles modelFileNames : list string) (w : world) :
  length modelFileNames < length modelFiles ->
  exists e w', addModelFiles modelFiles modelFileNames w = (Throw e, w').
Proof.
  intros Hshort.
  destruct (addModelFiles modelFiles modelFileNames w) as [[[]|e] w'] eqn:Hrun;
    [|eauto].
  exfalso. unfold addModelFiles in Hrun.
  apply bind_Ok in Hrun as (? & w1 & _ & Hrun).
  apply bind_Ok in Hrun as (results & w2 & Hmap & _).
  apply mapM_Ok_Forall2 in Hmap.
  destruct (lookup_lt_is_Some_2 modelFiles (length modelFileNames) Hshort)
    as [text Htext].
  assert (imap pair modelFiles !! length modelFileNames
          = Some (length modelFileNames, text)) as Hindexed
    by (by rewrite list_lookup_imap, Htext).
  destruct (Forall2_lookup_l _ _ _ _ _ Hmap Hindexed)
    as (? & _ & wa & wb & Hcallback).
  unfold addModelFiles_callback in Hcallback. cbn [fst snd] in Hcallback.
  rewrite (lookup_ge_None_2 modelFileNames (length modelFileNames)) in Hcallback
    by lia.
  discriminate.
Qed.

(** X17. Validation is never skipped after [addModelFile]: however the
    add ended, the next [validateModelFiles] calls the model manager's
    validation, once; when that returns the logic manager is flagged as
    validated, and when it throws the flag stays cleared. *)
Theorem add_then_validate_runs_validation
    (content fileName : string) (w : world) :
  let w1 := (addModelFile content fileName w).2 in
  validateModelFiles w1
  = match validateAllModelFiles (modelManager (logic w1)) with
    | Ok _ => (Ok tt, with_logic (set_validated true)
                                 (logged w1 [EValidateModelFiles]))
    | Throw e => (Throw e, logged w1 [EValidateModelFiles])
    end.
Proof.
  intros w1.
  pose proof (addModelFile_clears_validated content fileName w) as Hflag.
  fold w1 in Hflag. unfold validateModelFiles, mm_validateModelFiles.
  rewrite bind_run. cbn [gets]. rewrite Hflag. cbn [negb].
  rewrite !bind_run. cbn [gets]. rewrite call_run.
  by destruct (validateAllModelFiles (modelManager (logic w1))) as [[]|e].
Qed.

End ModelComposition.

(** ** The options of [validateContract], continued *)

Section ContractOptions.
Context `{ModelBinding} `{Serializer} `{ScriptRepository} `{Sandbox}.

(** What [validateContract] does to the heap, whether it returns or
    throws. *)
Lemma validateContract_heap contract utcOffset options w r w' :
  validateContract contract utcOffset options w = (r, w') ->
  heap w' = heap w \/
  exists l resource,
    options = ArgObject (Shared l) /\
    contract <> JNull /\
    fromJSON (modelManager (logic w)) contract
             [("validate", JBool false);
              ("acceptResourcesForRelationships", JBool true);
              ("utcOffset", utcOffset)] = Ok resource /\
    validate (modelManager (logic w)) resource
             [("permitResourcesForRelationships", JBool true)] = Ok tt /\
    heap w'
    = <[l := object_assign (default [] (heap w !! l))
                           [("ergo", JBool true);
                            ("permitResourcesForRelationships", JBool true)]]>
        (heap w).
Proof.
  intros Hrun.
  assert ((forall l, options <> ArgObject (Shared l)) \/
          exists l, options = ArgObject (Shared l)) as [Hlocal|[l ->]]
    by (destruct options as [ | |[l|o]]; eauto; left; discriminate).
  - left.
    by eapply (frame_validateContract_local (fun w0 => heap w0 = heap w));
      [ | exact Hlocal | | exact Hrun].
  - unfold validateContract in Hrun. cbn [options_or_empty] in Hrun.
    destruct (is_null contract) eqn:Hnull; [left; by injection Hrun as _ <-|].
    assert (contract <> JNull) as Hcontract by (by intros ->).
    unfold call_fromJSON, call_validate, call_toJSON, call_boxColl,
      assign_object, call, log, lift, gets, modify, mbind, M_bind, mret, M_ret
      in Hrun.
    cbn -[fromJSON validate toJSON boxColl object_assign] in Hrun.
    destruct (fromJSON _ contract _) as [resource|e] eqn:Hread;
      [|left; by injection Hrun as _ <-].
    destruct (validate _ resource _) as [[]|e] eqn:Hvalid;
      [|left; by injection Hrun as _ <-].
    right. exists l, resource. do 4 (split; [done|]).
    destruct (toJSON _ resource _) as [vJson|e] eqn:Hwrite;
      by injection Hrun as _ <-.
Qed.

(** X18. [validateContract] writes to the caller's options only after
    the contract has been read and has passed validation: however the
    call ends, the objects the caller holds are as before, unless the
    options are an object of the caller, the contract is not [null], and
    reading and validation returned, in which case exactly that object
    has been assigned [ergo] and [permitResourcesForRelationships]. *)
Theorem validateContract_writes_after_validation
    (contract utcOffset : json) (options : optarg) (w : world) :
  let after := (validateContract contract utcOffset options w).2 in
  heap after = heap w \/
  exists l resource,
    options = ArgObject (Shared l) /\
    contract <> JNull /\
    fromJSON (modelManager (logic w)) contract
             [("validate", JBool false);
              ("acceptResourcesForRelationships", JBool true);
              ("utcOffset", utcOffset)] = Ok resource /\
    validate (modelManager (logic w)) resource
             [("permitResourcesForRelationships", JBool true)] = Ok tt /\
    heap after
    = <[l := object_assign (default [] (heap w !! l))
                           [("ergo", JBool true);
                            ("permitResourcesForRelationships", JBool true)]]>
        (heap w).
Proof.
  intros after. subst after.
  destruct (validateContract contract utcOffset options w) as [r w'] eqn:Hrun.
  destruct (validateContract_heap _ _ _ _ _ _ Hrun)
    as [Hsame|(l & resource & ? & ? & ? & ? & ?)]; [by left|].
  right. by exists l, resource.
Qed.

(** X19. The write is not undone: when the serializer throws on a
    contract that was read and validated, [validateContract] throws the
    same error and the caller's options object already carries [ergo] and
    [permitResourcesForRelationships] set to [true]. *)
Theorem validateContract_keeps_write_on_failure
    (contract utcOffset : json) (l : loc) (o : jsobj) (w : world)
    (resource : Resource) (e : error) :
  contract <> JNull ->
  heap w !! l = Some o ->
  fromJSON (modelManager (logic w)) contract
           [("validate", JBool false);
            ("acceptResourcesForRelationships", JBool true);
            ("utcOffset", utcOffset)] = Ok resource ->
  validate (modelManager (logic w)) resource
           [("permitResourcesForRelationships", JBool true)] = Ok tt ->
  toJSON (modelManager (logic w)) resource
         (object_assign o [("ergo", JBool true);
                           ("permitResourcesForRelationships", JBool true)])
  = Throw e ->
  let run := validateContract contract utcOffset (ArgObject (Shared l)) w in
  run.1 = Throw e /\
  heap run.2 !! l
  = Some (object_assign o [("ergo", JBool true);
                           ("permitResourcesForRelationships", JBool true)]).
Proof.
  intros Hcontract Hl Hread Hvalid Hwrite run. subst run.
  unfold validateContract. cbn [options_or_empty].
  assert (is_null contract = false) as -> by (by destruct contract).
  unfold call_fromJSON, call_validate, call_toJSON, call_boxColl,
    assign_object, call, log, lift, gets, modify, mbind, M_bind, mret, M_ret.
  cbn -[fromJSON validate toJSON boxColl object_assign].
  rewrite Hread, Hvalid, Hl. cbn [default from_option id]. unfold id.
  rewrite Hwrite. cbn. split; [done|]. apply lookup_insert_eq.
Qed.

End ContractOptions.

(** ** Logic files and compilation *)

Lemma split_dot_no_dot s : has_dot s = false -> split_dot s = [s].
Proof.
  induction s as [|c s IH]; [done|]. cbn [has_dot split_dot].
  destruct (Ascii.eqb c "."%char); [discriminate|].
  intros Hs. by rewrite (IH Hs).
Qed.

Lemma split_dot_two s :
  has_dot s = true -> exists p1 p2 rest, split_dot s = p1 :: p2 :: rest.
Proof.
  induction s as [|c s IH]; [discriminate|]. cbn [has_dot split_dot].
  destruct (Ascii.eqb c "."%char).
  - intros _. destruct (has_dot s) eqn:Hs.
    + destruct (IH eq_refl) as (p1 & p2 & rest & ->). eauto.
    + rewrite (split_dot_no_dot _ Hs). eauto.
  - intros Hs. destruct (IH Hs) as (p1 & p2 & rest & ->). eauto.
Qed.

(** A name with a dot is some base, a dot, and its last piece, which has
    no dot. *)
Lemma split_dot_last s :
  has_dot s = true ->
  has_dot (List.last (split_dot s) EmptyString) = false /\
  exists base, s = base +:+ "." +:+ List.last (split_dot s) EmptyString.
Proof.
  induction s as [|c s IH]; [discriminate|]. cbn [has_dot split_dot].
  destruct (Ascii.eqb c "."%char) eqn:Hc.
  - intros _. apply Ascii.eqb_eq in Hc. subst c.
    destruct (has_dot s) eqn:Hs.
    + destruct (split_dot_two s Hs) as (p1 & p2 & rest & Hsplit).
      destruct (IH eq_refl) as [Hlast (base & Hbase)].
      rewrite Hsplit in *. split; [exact Hlast|].
      exists (String "."%char base). rewrite Hbase at 1. reflexivity.
    + rewrite (split_dot_no_dot _ Hs). split; [exact Hs|]. by exists EmptyString.
  - intros Hs. destruct (split_dot_two s Hs) as (p1 & p2 & rest & Hsplit).
    destruct (IH Hs) as [Hlast (base & Hbase)]. rewrite Hsplit in *.
    split; [exact Hlast|].
    exists (String c base). rewrite Hbase at 1. reflexivity.
Qed.

Section LogicFiles.
Context `{ModelBinding} `{Serializer} `{Repository : ScriptRepository} `{Sandbox}
        `{!ScriptEditing}.

(** X20. The extension [addLogicFile] gives a logic file: [.ergo] for a
    name without a dot; for a name with a dot, the dot and what follows
    the last dot of the name, so that the extension holds no other dot
    and the name ends with it.  The script is created under the
    normalised name with that extension. *)
Theorem logic_extension_is_the_last_suffix (logicFile fileName : string) :
  (has_dot fileName = false -> logicExtension fileName = ".ergo") /\
  (has_dot fileName = true ->
   exists base ext,
     logicExtension fileName = "." +:+ ext /\
     has_dot ext = false /\
     fileName = base +:+ logicExtension fileName) /\
  (forall w,
      addLogicFile logicFile fileName w
      = let sm := scriptManager (logic w) in
        match addScript sm (createScript sm (slash fileName)
                                         (logicExtension fileName) logicFile) with
        | Ok sm' => (Ok tt, with_logic (set_scriptManager sm') w)
        | Throw e => (Throw e, w)
        end).
Proof.
  split; [|split].
  - intros Hdot. unfold logicExtension. by rewrite Hdot.
  - intros Hdot. unfold logicExtension. rewrite Hdot. cbn [negb].
    destruct (split_dot_last fileName Hdot) as [Hlast (base & Hbase)].
    exists base, (List.last (split_dot fileName) EmptyString).
    split; [done|]. split; [exact Hlast|]. exact Hbase.
  - intros w. unfold addLogicFile. rewrite bind_run. cbn [gets].
    rewrite bind_run. unfold lift at 1.
    by destruct (addScript _ _).
Qed.

(** X21. [compileLogicSync] validates the models before it compiles:
    on a logic manager that is not validated and whose models fail
    validation it throws the validation error without calling the
    compiler, leaving the script manager and the contract name as they
    were; and whenever it returns, the logic manager is flagged as
    validated, its models are as before, and the models were validated
    during the call only if the flag was not set. *)
Theorem compileLogicSync_validates_first (force : bool) (w : world) :
  (validated (logic w) = false ->
   forall e,
     validateAllModelFiles (modelManager (logic w)) = Throw e ->
     compileLogicSync force w = (Throw e, logged w [EValidateModelFiles])) /\
  (forall script w',
      compileLogicSync force w = (Ok script, w') ->
      validated (logic w') = true /\
      modelManager (logic w') = modelManager (logic w) /\
      trace w' = if validated (logic w) then trace w
                 else trace w ++ [EValidateModelFiles]).
Proof.
  split.
  - intros Hflag e Hinvalid. unfold compileLogicSync. rewrite bind_run.
    unfold validateModelFiles, mm_validateModelFiles. rewrite bind_run.
    cbn [gets]. rewrite Hflag. cbn [negb]. rewrite !bind_run. cbn [gets].
    rewrite call_run, Hinvalid. reflexivity.
  - intros script w' Hrun. unfold compileLogicSync in Hrun.
    apply bind_Ok in Hrun as ([] & w1 & Hvalidate & Hrun).
    assert (validated (logic w1) = true /\
            modelManager (logic w1) = modelManager (logic w) /\
            trace w1 = if validated (logic w) then trace w
                       else trace w ++ [EValidateModelFiles])
      as (Hflag & Hmodels & Htrace).
    { unfold validateModelFiles in Hvalidate. rewrite bind_run in Hvalidate.
      cbn [gets] in Hvalidate. destruct (validated (logic w)) eqn:Hw.
      - by injection Hvalidate as <-.
      - cbn [negb] in Hvalidate. unfold mm_validateModelFiles in Hvalidate.
        apply bind_Ok in Hvalidate as ([] & w0 & Hcall & Hset).
        rewrite bind_run in Hcall. cbn [gets] in Hcall.
        apply call_Ok in Hcall as [_ ->]. by injection Hset as <-. }
    split_binds Hrun.
    repeat match goal with
    | Hs : lift _ _ = (Ok _, _) |- _ => apply lift_Ok in Hs as [_ ->]
    | Hs : gets _ _ = (Ok _, _) |- _ => injection Hs as _ <-
    | Hs : modify _ _ = (Ok _, _) |- _ => injection Hs as _ <-
    end.
    injection Hrun as _ <-.
    match goal with
    | Hs : ?m _ = (Ok _, ?w2) |- _ =>
        assert (validated (logic w2) = true /\
                modelManager (logic w2) = modelManager (logic w1) /\
                trace w2 = trace w1) as (? & ? & ?)
    end.
    { repeat match goal with
      | Hs : (match ?x with _ => _ end) _ = (Ok _, _) |- _ => destruct x
      | Hs : (if ?b then _ else _) _ = (Ok _, _) |- _ => destruct b
      end;
      match goal with
      | Hs : _ = (Ok _, _) |- _ => by injection Hs as _ <-
      end. }
    split; [done|]. split; congruence.
Qed.

End LogicFiles.

(** * More concrete runs *)

Section FurtherRuns.
#[local] Existing Instance Sample.modelBinding.
#[local] Existing Instance Sample.serializer.
#[local] Existing Instance Sample.scriptRepository.
#[local] Existing Instance Sample.sandbox.

(** [trigger_needs_request_and_state] on a [null] request. *)
Lemma trigger_needs_request_witness :
  nullish JNull || nullish defaultState = true /\
  exists e w',
    trigger "HelloWorld" Sample.contract JNull defaultState
            JUndefined JUndefined JUndefined Sample.world0 = (Throw e, w') /\
    engine w' = engine Sample.world0 /\
    compile_count (trace w') = compile_count (trace Sample.world0).
Proof.
  assert (nullish JNull || nullish defaultState = true) as Hnullish by reflexivity.
  split; [exact Hnullish|].
  exact (trigger_needs_request_and_state "HelloWorld" Sample.contract JNull
           defaultState JUndefined JUndefined JUndefined Sample.world0 Hnullish).
Defined.

(** [invoke_needs_state] on a missing state. *)
Lemma invoke_needs_state_witness :
  nullish JUndefined = true /\
  exists e w',
    invoke "HelloWorld" "helloworld" Sample.contract
           (JObject [("request", Sample.request)]) JUndefined
           JUndefined JUndefined JUndefined ArgNull Sample.world0
      = (Throw e, w') /\
    engine w' = engine Sample.world0 /\
    compile_count (trace w') = compile_count (trace Sample.world0).
Proof.
  assert (nullish JUndefined = true) as Hnullish by reflexivity.
  split; [exact Hnullish|].
  exact (invoke_needs_state "HelloWorld" "helloworld" Sample.contract
           (JObject [("request", Sample.request)]) JUndefined
           JUndefined JUndefined JUndefined ArgNull Sample.world0 Hnullish).
Defined.

(** [invocation_needs_target_and_contract] on the sample invoke. *)
Lemma invocation_needs_target_witness :
  let i := Invoke "helloworld" Sample.contract
                  (JObject [("request", Sample.request)]) defaultState
                  JUndefined JUndefined JUndefined ArgNull in
  let run := run_invocation "HelloWorld" i Sample.world0 in
  let answer := JObject [("clause", JString "HelloWorld");
                         ("params", JObject [("request", Sample.request)]);
                         ("response", JNull);
                         ("state", defaultState);
                         ("emit", JArray [])] in
  run = (Ok answer, run.2) /\
  target (logic Sample.world0) = "es6" /\
  exists name, contractName (logic Sample.world0) = Some name /\ name <> "".
Proof.
  intros i run answer.
  assert (run = (Ok answer, run.2)) as Hrun by (vm_compute; reflexivity).
  split; [exact Hrun|].
  exact (invocation_needs_target_and_contract "HelloWorld" i Sample.world0
           run.2 answer Hrun).
Defined.

(** [invocation_needs_emit] on the sample trigger. *)
Lemma invocation_needs_emit_witness :
  let i := Trigger Sample.contract Sample.request defaultState
                   JUndefined JUndefined JUndefined in
  let run := run_invocation "HelloWorld" i Sample.world0 in
  let answer := JObject [("clause", JString "HelloWorld");
                         ("request", Sample.request);
                         ("response", JNull);
                         ("state", defaultState);
                         ("emit", JArray [])] in
  run = (Ok answer, run.2) /\
  exists (now : Moment) (offset options context : json) (script : Script)
         (callScript : string) (result emit : json),
    runVMScriptCall offset now options context script callScript = Ok result /\
    nullish result = false /\
    get_property result "__emit" = Ok emit /\
    nullish (unboxColl emit) = false.
Proof.
  intros i run answer.
  assert (run = (Ok answer, run.2)) as Hrun by (vm_compute; reflexivity).
  split; [exact Hrun|].
  exact (invocation_needs_emit "HelloWorld" i Sample.world0 run.2 answer Hrun).
Defined.

(** [cached_script_is_reused] with a second script manager whose logic
    differs from the cached one. *)
Lemma cached_script_is_reused_witness :
  let first := cacheJsScript "function __dispatch() {}" "HelloWorld"
                             Sample.world0 in
  first = (Ok "function __dispatch() {}", first.2) /\
  cacheJsScript "function __dispatch() { return 1; }" "HelloWorld" first.2
  = (Ok "function __dispatch() {}", first.2).
Proof.
  intros first.
  assert (first = (Ok "function __dispatch() {}", first.2)) as Hfirst
    by (vm_compute; reflexivity).
  split; [exact Hfirst|].
  exact (cached_script_is_reused "function __dispatch() {}"
           "function __dispatch() { return 1; }" "HelloWorld"
           Sample.world0 first.2 "function __dispatch() {}" Hfirst).
Defined.

(** After a first call has filled the cache and the cache was cleared,
    the contract identifier is compiled again, and the name
    [constructor] is found without any compilation. *)
Example clear_then_cache_sample :
  let filled := (cacheJsScript "function __dispatch() {}" "HelloWorld"
                               Sample.world0).2 in
  let cleared := (clearCacheJsScript filled).2 in
  let run := cacheJsScript "function __dispatch() {}" "HelloWorld" cleared in
  let found := cacheJsScript "function __dispatch() {}" "constructor" cleared in
  run.1 = Ok "function __dispatch() {}" /\
  compile_count (trace filled) = 1 /\
  compile_count (trace run.2) = 2 /\
  scripts (engine run.2) !! "HelloWorld" = Some "function __dispatch() {}" /\
  found = (Ok (Sample.nativeText "constructor"), cleared).
Proof. intros filled cleared run found. repeat split; vm_compute; reflexivity. Qed.

(** [validateInputRecord_keeps_keys] on parameters with one object, one
    number and the key [__proto__]. *)
Lemma validateInputRecord_keeps_keys_witness :
  let fields := [("request", Sample.request); ("__proto__", JNum 1);
                 ("count", JNum 3)] in
  let kept := [("request", Sample.request); ("count", JNum 3)] in
  let run := validateInputRecord (JObject fields) JUndefined Sample.world0 in
  NoDup (map fst fields) /\
  run = (Ok (JObject kept), run.2) /\
  exists validated,
    JObject kept = JObject validated /\
    map fst validated
    = List.filter (fun k => negb (String.eqb k "__proto__")) (map fst fields) /\
    ~ In "__proto__" (map fst validated) /\
    Forall2 (fun kv kv' =>
               if instanceof_Object kv.2
               then exists w1 w2,
                      validateInput kv.2 JUndefined w1 = (Ok kv'.2, w2)
               else kv'.2 = kv.2)
            (assigned_entries fields) validated.
Proof.
  intros fields kept run.
  assert (NoDup (map fst fields)) as Hnodup.
  { repeat constructor; cbn; rewrite ?elem_of_cons, ?elem_of_nil;
      intros Hin; repeat destruct Hin as [Hin|Hin]; done. }
  assert (run = (Ok (JObject kept), run.2)) as Hrun by (vm_compute; reflexivity).
  split; [exact Hnodup|]. split; [exact Hrun|].
  exact (validateInputRecord_keeps_keys fields JUndefined Sample.world0 run.2
           (JObject kept) Hnodup Hrun).
Defined.

(** [validateOutputArray_elementwise] on a boxed collection of a string
    and an object. *)
Lemma validateOutputArray_elementwise_witness :
  let output := JObject [("$coll", JArray [JString "paid"; Sample.request]);
                         ("$length", JNum 2)] in
  let run := validateOutputArray output JUndefined Sample.world0 in
  run = (Ok [JString "paid"; Sample.request], run.2) /\
  exists elements,
    indexed_elements (unboxColl output) = Ok elements /\
    length [JString "paid"; Sample.request] = length elements /\
    Forall2 (fun element v =>
               exists w1 w2, validateOutput element JUndefined w1 = (Ok v, w2))
            elements [JString "paid"; Sample.request].
Proof.
  intros output run.
  assert (run = (Ok [JString "paid"; Sample.request], run.2)) as Hrun
    by (vm_compute; reflexivity).
  split; [exact Hrun|].
  exact (validateOutputArray_elementwise output JUndefined Sample.world0 run.2
           [JString "paid"; Sample.request] Hrun).
Defined.

(** [addModelFiles_needs_a_name_per_file] on two model texts and one
    name. *)
Lemma addModelFiles_needs_a_name_witness :
  let modelFiles := ["namespace org.acme.first"; "namespace org.acme.second"] in
  let modelFileNames := ["first.cto"] in
  length modelFileNames < length modelFiles /\
  exists e w',
    addModelFiles modelFiles modelFileNames Sample.world0 = (Throw e, w').
Proof.
  intros modelFiles modelFileNames.
  assert (length modelFileNames < length modelFiles) as Hshort by (cbn; lia).
  split; [exact Hshort|].
  exact (addModelFiles_needs_a_name_per_file modelFiles modelFileNames
           Sample.world0 Hshort).
Defined.

(** The first model is registered before the missing name is read. *)
Example addModelFiles_partial_sample :
  let run := addModelFiles ["namespace org.acme.first"; "namespace org.acme.second"]
                           ["first.cto"] Sample.world0 in
  run.1 = Throw (TypeError "Cannot read property 'replace' of undefined") /\
  map getNamespace (modelManager (logic run.2))
  = ["org.accordproject.base"; "org.acme.first"].
Proof. intros run. split; vm_compute; reflexivity. Qed.

End FurtherRuns.

Section StrictRuns.
#[local] Existing Instance Sample.modelBinding.
#[local] Existing Instance Sample.serializer.
#[local] Existing Instance Sample.scriptRepository.
#[local] Existing Instance SampleEditing.strictSandbox.

(** [failed_compile_is_not_cached] with a compiler that rejects the
    empty source. *)
Lemma failed_compile_is_not_cached_witness :
  let w := SampleEditing.strictWorld in
  let failed := cacheJsScript "" "HelloWorld" w in
  let e := Error "SyntaxError: no logic" in
  scripts (engine w) !! "HelloWorld" = None /\
  failed = (Throw e, failed.2) /\
  getCompiledJavaScript "function __dispatch() {}" = Ok "function __dispatch() {}" /\
  compileVMScript "function __dispatch() {}" = Ok "function __dispatch() {}" /\
  engine failed.2 = engine w /\
  exists w2,
    cacheJsScript "function __dispatch() {}" "HelloWorld" failed.2
      = (Ok "function __dispatch() {}", w2) /\
    scripts (engine w2) !! "HelloWorld" = Some "function __dispatch() {}" /\
    compile_count (trace w2) = S (compile_count (trace failed.2)).
Proof.
  intros w failed e.
  assert (scripts (engine w) !! "HelloWorld" = None) as Hmiss by reflexivity.
  assert (failed = (Throw e, failed.2)) as Hfailed by (vm_compute; reflexivity).
  assert (getCompiledJavaScript "function __dispatch() {}"
          = Ok "function __dispatch() {}") as Hsource by reflexivity.
  assert (compileVMScript "function __dispatch() {}"
          = Ok "function __dispatch() {}") as Hcompile by reflexivity.
  split; [exact Hmiss|]. split; [exact Hfailed|]. split; [exact Hsource|].
  split; [exact Hcompile|].
  exact (failed_compile_is_not_cached "" "function __dispatch() {}" "HelloWorld"
           w failed.2 e "function __dispatch() {}" "function __dispatch() {}"
           Hmiss Hfailed Hsource Hcompile).
Defined.


End StrictRuns.

Section PickyRuns.
#[local] Existing Instance Sample.modelBinding.
#[local] Existing Instance SampleEditing.pickySerializer.
#[local] Existing Instance Sample.scriptRepository.
#[local] Existing Instance Sample.sandbox.

(** C10 as stated fails on a contract that does not pass validation and
    on options that carry both flags.  A contract without a [$class] is
    rejected by the validation, and the options object the caller holds
    is as it was, without either flag.  With options that hold [ergo] and
    [permitResourcesForRelationships] as [true] already, the call returns
    and the object is as it was. *)
Lemma validateContract_can_leave_options_unchanged :
  let unclassed := JObject [("name", JString "World")] in
  let rejected := validateContract unclassed (JNum 0)
                                   (ArgObject (Shared 1%positive))
                                   Sample.worldWithOptions in
  let returned := validateContract Sample.contract (JNum 0)
                                   (ArgObject (Shared 1%positive))
                                   SampleEditing.worldWithFlaggedOptions in
  (unclassed <> JNull /\
   heap Sample.worldWithOptions !! 1%positive = Some Sample.callerOptions /\
   rejected.1 = Throw (Error "Invalid or missing identifier for Type") /\
   heap rejected.2 !! 1%positive = Some Sample.callerOptions /\
   lookup_field "ergo" Sample.callerOptions = None /\
   lookup_field "permitResourcesForRelationships" Sample.callerOptions = None) /\
  (Sample.contract <> JNull /\
   heap SampleEditing.worldWithFlaggedOptions !! 1%positive
   = Some SampleEditing.flaggedOptions /\
   returned.1 = Ok (Some (mkValidContract Sample.contract Sample.contract)) /\
   heap returned.2 !! 1%positive = Some SampleEditing.flaggedOptions).
Proof.
  intros unclassed rejected returned.
  repeat split; try discriminate; vm_compute; reflexivity.
Qed.

End PickyRuns.

Section ReadOnlyRuns.
#[local] Existing Instance Sample.modelBinding.
#[local] Existing Instance SampleEditing.readOnlySerializer.
#[local] Existing Instance Sample.scriptRepository.
#[local] Existing Instance Sample.sandbox.

(** [validateContract_keeps_write_on_failure] with a serializer that
    cannot write. *)
Lemma validateContract_keeps_write_witness :
  let w := Sample.worldWithOptions in
  let e := Error "Cannot serialize" in
  let assigned := [("convertResourcesToId", JBool true);
                   ("ergo", JBool true);
                   ("permitResourcesForRelationships", JBool true)] in
  let run := validateContract Sample.contract (JNum 0)
                              (ArgObject (Shared 1%positive)) w in
  Sample.contract <> JNull /\
  heap w !! 1%positive = Some Sample.callerOptions /\
  run.1 = Throw e /\
  heap run.2 !! 1%positive = Some assigned.
Proof.
  intros w e assigned run.
  assert (Sample.contract <> JNull) as Hcontract by discriminate.
  assert (heap w !! 1%positive = Some Sample.callerOptions) as Hheap
    by reflexivity.
  split; [exact Hcontract|]. split; [exact Hheap|].
  exact (validateContract_keeps_write_on_failure Sample.contract (JNum 0)
           1%positive Sample.callerOptions w Sample.contract e
           Hcontract Hheap eq_refl eq_refl eq_refl).
Defined.

End ReadOnlyRuns.
